(** * Product Service: token issuance, authentication and role gates

    A shallow embedding of [main.py] and [models.py].

    - Request handlers are functions in a small state-and-exception monad
      over the database; requests are served one at a time.
    - The clock is read explicitly: every call of [datetime.utcnow()], and
      the instant at which a token is decoded, is an argument.
    - A timestamp is an integer, the number of microseconds since the
      epoch; [datetime] arithmetic raises [OverflowError] outside the
      years 1 to 9999, and so does an integer that does not fit SQLite's
      64 bits.  Nothing catches these: the framework answers 500.
    - The JWT package is not among the sources.  Its signing layer is an
      interface with two laws; its handling of [exp] is written out. *)

From Stdlib Require Import ZArith String Ascii List Lia.
From Stdlib Require Import Floats.PrimFloat.
From Stdlib Require Import DecimalString.
From stdpp Require Import base option list strings gmap.

Open Scope string_scope.
Open Scope Z_scope.

(** ** Python built-ins the service relies on *)

(** [str.lower()], on the ASCII range.  No character outside that range
    lowers to one of the letters of a scheme name, so the comparison
    against an ASCII literal is not affected by the restriction. *)
Definition ascii_lower (c : ascii) : ascii :=
  let n := nat_of_ascii c in
  if ((65 <=? n) && (n <=? 90))%nat then ascii_of_nat (n + 32) else c.

Fixpoint lower (s : string) : string :=
  match s with
  | EmptyString => EmptyString
  | String c r => String (ascii_lower c) (lower r)
  end.

(** [s.partition(sep)] for a one-character separator: the text before the
    first occurrence, the separator when it was found, the text after. *)
Fixpoint partition (sep : ascii) (s : string) : string * string * string :=
  match s with
  | EmptyString => (EmptyString, EmptyString, EmptyString)
  | String c r =>
      if Ascii.eqb c sep then (EmptyString, String sep EmptyString, r)
      else let '(before, found, after) := partition sep r in
           (String c before, found, after)
  end.

(** Truth value of a [str]. *)
Definition str_truthy (s : string) : bool :=
  match s with EmptyString => false | String _ _ => true end.

(** [x or default] on an [Optional[int]]: [None] and [0] are falsy. *)
Definition int_or (x : option Z) (default : Z) : Z :=
  match x with
  | None => default
  | Some n => if n =? 0 then default else n
  end.

(** A [datetime] is its number of microseconds since the epoch;
    [timedelta(minutes=m)] is a number of microseconds. *)
Definition datetime : Type := Z.

Definition timedelta_minutes (m : Z) : Z := m * 60000000.

(** [calendar.timegm(d.utctimetuple())]: whole seconds, rounded down. *)
Definition timegm (d : datetime) : Z := d / 1000000.

(** [datetime.min] and [datetime.max]: the first instant of year 1 and
    the last microsecond of year 9999. *)
Definition datetime_min : Z := -62135596800000000.
Definition datetime_max : Z := 253402300799999999.

(** [timedelta(minutes=m)]: [None] stands for the [OverflowError] of a
    duration beyond 999999999 days either way. *)
Definition timedelta (minutes : Z) : option Z :=
  let us := timedelta_minutes minutes in
  if (-999999999 <=? us / 86400000000) && (us / 86400000000 <=? 999999999)
  then Some us else None.

(** [d + timedelta(minutes=m)]: [None] stands for the [OverflowError] of
    the duration, or of a sum outside the range of [datetime]. *)
Definition plus_minutes (d : datetime) (minutes : Z) : option datetime :=
  match timedelta minutes with
  | None => None
  | Some td =>
      if (datetime_min <=? d + td) && (d + td <=? datetime_max)
      then Some (d + td) else None
  end.

(** An integer SQLite can hold: outside these 64 bits the driver raises
    [OverflowError] when the value is bound to a query. *)
Definition sqlite_integer (n : Z) : bool :=
  (-9223372036854775808 <=? n) && (n <=? 9223372036854775807).

(** A [Float] column: SQLite keeps NaN as NULL, and any other number as
    it is. *)
Definition sqlite_real (x : option float) : option float :=
  match x with
  | Some f => if PrimFloat.is_nan f then None else Some f
  | None => None
  end.

(** ** models.py *)

Record User := mkUser {
  user_id : Z;
  username : string;
  role : string;
  hashed_password : option string;
  api_token_hash : option string;
  token_expires_at : option datetime;
  is_active : option bool
}.

Record Product := mkProduct {
  product_id : Z;
  name : string;
  description : option string;
  price : option float
}.

(** The two tables of [products.db]. *)
Record Database := mkDatabase {
  users : list User;
  products : list Product
}.

(** ** Handlers: state and [HTTPException] *)

Record HTTPException := mkHTTPException {
  status_code : Z;
  detail : string
}.

(** An exception that is no [HTTPException]. *)
Inductive PythonError :=
| OverflowError.

Inductive Outcome (A : Type) : Type :=
| Return (a : A)
| Raise (e : HTTPException)
| Uncaught (x : PythonError).
Arguments Return {A} a.
Arguments Raise {A} e.
Arguments Uncaught {A} x.

Definition Handler (A : Type) : Type := Database -> Outcome A * Database.

Definition pure {A} (a : A) : Handler A := fun db => (Return a, db).

Definition raise {A} (e : HTTPException) : Handler A := fun db => (Raise e, db).

Definition uncaught {A} (x : PythonError) : Handler A := fun db => (Uncaught x, db).

Definition bind {A B} (m : Handler A) (k : A -> Handler B) : Handler B :=
  fun db =>
    match m db with
    | (Return a, db') => k a db'
    | (Raise e, db') => (Raise e, db')
    | (Uncaught x, db') => (Uncaught x, db')
    end.

Notation "'let*' x ':=' m 'in' k" := (bind m (fun x => k))
  (at level 10, x name, m at level 100, k at level 200).

(** What the framework sends back: the value with status 200, the
    exception's own status with a body holding its [detail], or, for an
    exception nothing caught, status 500 with a line of text. *)
Inductive Body (A : Type) : Type :=
| Content (a : A)
| Detail (msg : string)
| PlainText (text : string).
Arguments Content {A} a.
Arguments Detail {A} msg.
Arguments PlainText {A} text.

Definition http_response {A} (o : Outcome A) : Z * Body A :=
  match o with
  | Return a => (200, Content a)
  | Raise e => (status_code e, Detail (detail e))
  | Uncaught _ => (500, PlainText "Internal Server Error")
  end.

(** A field of a JSON request body: left out, [null], or given. *)
Inductive json_field (A : Type) : Type :=
| Absent
| Null
| Given (a : A).
Arguments Absent {A}.
Arguments Null {A}.
Arguments Given {A} a.

(** ** Claim sets *)

(** A JSON scalar of a claim set: the service writes strings and whole
    numbers only. *)
Inductive jval :=
| JStr (s : string)
| JInt (n : Z).

#[global] Instance jval_eq_dec : EqDecision jval.
Proof. solve_decision. Defined.

(** A value of the dictionary handed to [jwt.encode]: JSON, or a
    [datetime] still to be converted. *)
Inductive claim :=
| CJson (v : jval)
| CDatetime (d : datetime).

(** Truth value of [payload.get(key)]. *)
Definition truthy (v : option jval) : bool :=
  match v with
  | None => false
  | Some (JStr s) => str_truthy s
  | Some (JInt n) => negb (n =? 0)
  end.

(** [column == v] on a [String] column that is never NULL: SQLite
    compares the stored text with the text of [v] (a number is rendered in
    decimal); no row equals [None]. *)
Definition sql_text_eq (column : string) (v : option jval) : bool :=
  match v with
  | None => false
  | Some (JStr s) => String.eqb column s
  | Some (JInt n) => String.eqb column (NilZero.string_of_int (Z.to_int n))
  end.

(** [db.query(User).filter(User.username == v).first()] *)
Definition query_user_by_username (v : option jval) : Handler (option User) :=
  fun db => (Return (List.find (fun u => sql_text_eq (username u) v) (users db)), db).

(** [db.query(Product).filter(Product.name == n).first()] *)
Definition query_product_by_name (n : string) : Handler (option Product) :=
  fun db => (Return (List.find (fun p => String.eqb (name p) n) (products db)), db).

(** [db.query(Product).filter(Product.id == i).first()] *)
Definition query_product_by_id (i : Z) : Handler (option Product) :=
  fun db =>
    if sqlite_integer i then
      (Return (List.find (fun p => product_id p =? i) (products db)), db)
    else (Uncaught OverflowError, db).

(** [db.query(Product).all()] *)
Definition query_products_all : Handler (list Product) :=
  fun db => (Return (products db), db).

(** The row id SQLite gives a new row: 1 in an empty table, else one
    more than the largest in use, as long as that is not yet the largest
    integer SQLite has. *)
Definition next_product_id (ps : list Product) : Z :=
  match map product_id ps with
  | [] => 1
  | i :: ids => 1 + fold_right Z.max i ids
  end.


(** [db.add(product); db.commit(); db.refresh(product)]: the product
    comes back as the table holds it. *)
Definition add_commit_refresh (n : string) (d : option string) (p : option float)
  : Handler Product :=
  fun db =>
    let row := mkProduct (next_product_id (products db)) n d (sqlite_real p) in
    (Return row, mkDatabase (users db) (products db ++ [row])).

(** ** The JWT library *)

(** Why a token was refused before any claim was read. *)
Inductive JWSError :=
| Malformed
| AlgorithmMismatch
| BadSignature.

(** The subclasses of [PyJWTError] that [jwt.decode] raises here. *)
Inductive PyJWTError :=
| DecodeError
| InvalidAlgorithmError
| InvalidSignatureError
| ExpiredSignatureError.

(** Modelled from the spec: the signing layer of the JWT package, which
    the sources import and do not contain.  [jws_sign payload key alg] is
    the "signed, self-contained token string" for a claim set;
    [jws_verify token key algorithms] reads a token, "verifies signature
    against the secret and algorithm" and gives the claim set back, or
    says why not.  The check of [exp] is not part of this layer: it is
    [validate_exp] below.  [int_of_str] is Python's [int] on a [str],
    [None] where it raises [ValueError]. *)
Class JWS := {
  jws_sign : gmap string jval -> string -> string -> string;
  jws_verify : string -> string -> list string -> JWSError + gmap string jval;
  int_of_str : string -> option Z
}.

(** What the service needs of the signing layer: an HS256 token verifies
    under the key it was signed with and carries the claim set unchanged,
    and a token is never the empty string. *)
Class JWSLaws (J : JWS) : Prop := {
  verify_sign : forall payload key,
    jws_verify (jws_sign payload key "HS256") key ["HS256"] = inr payload;
  sign_nonempty : forall payload key alg,
    jws_sign payload key alg <> EmptyString
}.

Definition from_jws (e : JWSError) : PyJWTError :=
  match e with
  | Malformed => DecodeError
  | AlgorithmMismatch => InvalidAlgorithmError
  | BadSignature => InvalidSignatureError
  end.

(** Modelled from the spec: how the package stores "exp: expires_at" in
    the token.  A [datetime] claim becomes a number of whole seconds. *)
Definition int_date (c : claim) : jval :=
  match c with
  | CJson v => v
  | CDatetime d => JInt (timegm d)
  end.

Section Codec.
Context {J : JWS}.

(** Modelled from the spec: [jwt.encode(payload, key, algorithm=alg)],
    the token for the claim set with its dates as numbers. *)
Definition jwt_encode (payload : gmap string claim) (key alg : string) : string :=
  jws_sign (int_date <$> payload) key alg.

(** [int(payload["exp"])], [None] where it raises [ValueError]. *)
Definition int_claim (v : jval) : option Z :=
  match v with
  | JInt n => Some n
  | JStr s => int_of_str s
  end.

(** Modelled from the spec: the package "verifies [exp] is in the future
    relative to now".  An [exp] that is not an integer makes the token
    malformed; a token is expired from the instant [exp] names on; a
    claim set without [exp] does not expire.  Of the registered claims
    only [exp] is checked: the service writes no other. *)
Definition validate_exp (now : datetime) (payload : gmap string jval)
  : option PyJWTError :=
  match payload !! "exp" with
  | None => None
  | Some v =>
      match int_claim v with
      | None => Some DecodeError
      | Some exp =>
          if exp * 1000000 <=? now then Some ExpiredSignatureError else None
      end
  end.

(** Modelled from the spec: [jwt.decode(token, key, algorithms=algs)]
    called at [now], which fails "when signature verification fails, the
    algorithm doesn't match, the token is malformed, or [exp] has
    passed". *)
Definition jwt_decode (now : datetime) (token key : string) (algs : list string)
  : PyJWTError + gmap string jval :=
  match jws_verify token key algs with
  | inl e => inl (from_jws e)
  | inr payload =>
      match validate_exp now payload with
      | Some e => inl e
      | None => inr payload
      end
  end.

(** ** main.py: settings and helpers *)

Definition SECRET_KEY : string := "CHANGE_THIS_SECRET_KEY".
Definition ALGORITHM : string := "HS256".
Definition ACCESS_TOKEN_EXPIRE_MINUTES : Z := 15.

(** [utcnow] is the reading of [datetime.utcnow()] inside the call.
    The sum on the second line is where the call can end in
    [OverflowError]. *)
Definition create_access_token (utcnow : datetime) (data : gmap string jval)
    (expires_minutes : Z) : PythonError + string :=
  let to_encode : gmap string claim := CJson <$> data in
  match plus_minutes utcnow expires_minutes with
  | None => inl OverflowError
  | Some expire =>
      let to_encode := <["exp" := CDatetime expire]> to_encode in
      let encoded := jwt_encode to_encode SECRET_KEY ALGORITHM in
      inr encoded
  end.

(** The token [create_access_token] returns for [data] when the expiry
    it computes is [expire]. *)
Definition token_until (expire : datetime) (data : gmap string jval) : string :=
  jwt_encode (<["exp" := CDatetime expire]> (CJson <$> data)) SECRET_KEY ALGORITHM.

(** The dictionary literal [{"sub": u, "role": r}]. *)
Definition sub_role (u r : string) : gmap string jval :=
  <["sub" := JStr u]> (<["role" := JStr r]> ∅).

Definition decode_token (now : datetime) (token : string)
  : option (gmap string jval) :=
  match jwt_decode now token SECRET_KEY [ALGORITHM] with
  | inr payload => Some payload
  | inl _ => None
  end.

(** ** Authentication dependency *)

(** Truth value of the value [decode_token] returned: [None] and the
    empty dictionary are falsy. *)
Definition payload_truthy (payload : option (gmap string jval)) : bool :=
  match payload with
  | None => false
  | Some p => negb (bool_decide (p = ∅))
  end.

Definition get_current_user (now : datetime) (authorization : option string)
  : Handler User :=
  match authorization with
  | None => raise (mkHTTPException 401 "Missing Authorization header")
  | Some authorization =>
      if negb (str_truthy authorization) then
        raise (mkHTTPException 401 "Missing Authorization header")
      else
        let '(scheme, _, token) := partition " " authorization in
        if negb (String.eqb (lower scheme) "bearer") || negb (str_truthy token) then
          raise (mkHTTPException 401 "Invalid Authorization header format")
        else
          let payload := decode_token now token in
          if negb (payload_truthy payload) then
            raise (mkHTTPException 401 "Invalid or expired token")
          else
            let username := (default ∅ payload) !! "sub" in
            if negb (truthy username) then
              raise (mkHTTPException 401 "Invalid token payload")
            else
              let* user := query_user_by_username username in
              match user with
              | None => raise (mkHTTPException 401 "User not found")
              | Some user => pure user
              end
  end.

(** The checker that [require_roles] returns for the given roles. *)
Definition require_roles (roles : list string) (user : User) : Handler User :=
  if negb (bool_decide (role user ∈ roles)) then
    raise (mkHTTPException 403 "403 Forbidden")
  else pure user.

(** ** Schemas *)

Record TokenRequest := mkTokenRequest {
  req_username : string;
  expires_minutes : option Z
}.

(** The body of a token request as the schema reads it:
    [expires_minutes] takes its default when it is left out, and is
    [None] when it is [null]. *)
Definition parse_TokenRequest (username : string) (minutes : json_field Z)
  : TokenRequest :=
  mkTokenRequest username
    match minutes with
    | Absent => Some ACCESS_TOKEN_EXPIRE_MINUTES
    | Null => None
    | Given n => Some n
    end.

Record TokenResponse := mkTokenResponse {
  access_token : string;
  token_type : string;
  resp_role : string;
  expires_at : datetime
}.

Record ProductIn := mkProductIn {
  in_name : string;
  in_description : option string;
  in_price : option float
}.

(** ** Token creation endpoint *)

(** [utcnow1] is the clock read inside [create_access_token], [utcnow2]
    the one read for [expires_at]. *)
Definition create_token (utcnow1 utcnow2 : datetime) (request : TokenRequest)
    (caller : User) : Handler TokenResponse :=
  if bool_decide (role caller ≠ "admin")
     && bool_decide (username caller ≠ req_username request) then
    raise (mkHTTPException 403 "You can create JWT tokens only for your own account.")
  else
    let* user := query_user_by_username (Some (JStr (req_username request))) in
    match user with
    | None => raise (mkHTTPException 404 "User not found")
    | Some user =>
        match create_access_token utcnow1 (sub_role (username user) (role user))
                (int_or (expires_minutes request) ACCESS_TOKEN_EXPIRE_MINUTES) with
        | inl x => uncaught x
        | inr access_token =>
            match plus_minutes utcnow2
                    (int_or (expires_minutes request) ACCESS_TOKEN_EXPIRE_MINUTES) with
            | None => uncaught OverflowError
            | Some expires_at =>
                pure (mkTokenResponse access_token "bearer" (role user) expires_at)
            end
        end
    end.

(** ** Product endpoints *)

Definition add_product (p : ProductIn) (user : User) : Handler Product :=
  let* exists_ := query_product_by_name (in_name p) in
  match exists_ with
  | Some _ => raise (mkHTTPException 409 "Product name must be unique.")
  | None => add_commit_refresh (in_name p) (in_description p) (in_price p)
  end.

Definition get_products (user : User) : Handler (list Product) :=
  let* products := query_products_all in
  match products with
  | [] => raise (mkHTTPException 200 "No products found")
  | _ :: _ => pure products
  end.

Definition get_product (pid : Z) (user : User) : Handler Product :=
  let* product := query_product_by_id pid in
  match product with
  | None => raise (mkHTTPException 404 "Product not found")
  | Some product => pure product
  end.

(** ** The invalid tokens, as the specification lists them

    A token read at [now] under the service's key and algorithm is invalid
    when its signature does not verify, when its algorithm is not the
    fixed one, when it is malformed (the serialisation, or an [exp] that
    is not an integer), or when its [exp] has passed. *)
Inductive invalid_token (now : datetime) (token : string) : PyJWTError -> Prop :=
| invalid_signature :
    jws_verify token SECRET_KEY [ALGORITHM] = inl BadSignature ->
    invalid_token now token InvalidSignatureError
| invalid_algorithm :
    jws_verify token SECRET_KEY [ALGORITHM] = inl AlgorithmMismatch ->
    invalid_token now token InvalidAlgorithmError
| invalid_malformed :
    jws_verify token SECRET_KEY [ALGORITHM] = inl Malformed ->
    invalid_token now token DecodeError
| invalid_exp_type payload v :
    jws_verify token SECRET_KEY [ALGORITHM] = inr payload ->
    payload !! "exp" = Some v -> int_claim v = None ->
    invalid_token now token DecodeError
| invalid_expired payload v exp :
    jws_verify token SECRET_KEY [ALGORITHM] = inr payload ->
    payload !! "exp" = Some v -> int_claim v = Some exp ->
    exp * 1000000 <= now ->
    invalid_token now token ExpiredSignatureError.

(** ** Routes: each handler behind its dependencies *)

Definition POST_token (now utcnow1 utcnow2 : datetime)
    (authorization : option string) (request : TokenRequest)
  : Handler TokenResponse :=
  let* caller := get_current_user now authorization in
  create_token utcnow1 utcnow2 request caller.

(** [Depends(require_roles(...))]: the checker, fed by its own
    dependency on [get_current_user]. *)
Definition depends_require_roles (roles : list string) (now : datetime)
    (authorization : option string) : Handler User :=
  let* user := get_current_user now authorization in
  require_roles roles user.

Definition POST_products (now : datetime) (authorization : option string)
    (p : ProductIn) : Handler Product :=
  let* user := depends_require_roles ["admin"] now authorization in
  add_product p user.

Definition GET_products (now : datetime) (authorization : option string)
  : Handler (list Product) :=
  let* user := depends_require_roles ["admin"; "privileged"] now authorization in
  get_products user.

Definition GET_product (now : datetime) (authorization : option string)
    (pid : Z) : Handler Product :=
  let* user := depends_require_roles ["admin"; "privileged"] now authorization in
  get_product pid user.

Definition root : Handler (list (string * string)) :=
  pure [("status", "running"); ("service", "Product Service")].

(** One request to the service, with the clock readings it will see. *)
Inductive Request :=
| ReqPostToken (now utcnow1 utcnow2 : datetime) (authorization : option string)
    (body : TokenRequest)
| ReqPostProducts (now : datetime) (authorization : option string) (body : ProductIn)
| ReqGetProducts (now : datetime) (authorization : option string)
| ReqGetProduct (now : datetime) (authorization : option string) (pid : Z)
| ReqRoot.

(** The database a request leaves behind. *)
Definition serve (r : Request) (db : Database) : Database :=
  match r with
  | ReqPostToken now u1 u2 a body => snd (POST_token now u1 u2 a body db)
  | ReqPostProducts now a body => snd (POST_products now a body db)
  | ReqGetProducts now a => snd (GET_products now a db)
  | ReqGetProduct now a pid => snd (GET_product now a pid db)
  | ReqRoot => snd (root db)
  end.

(** The databases the service can reach from [db] by serving requests. *)
Inductive reachable (db : Database) : Database -> Prop :=
| reachable_here : reachable db db
| reachable_step r db' : reachable db db' -> reachable db (serve r db').

End Codec.

(** ** The failures of authentication, by class *)

Definition MissingCredentials : HTTPException :=
  mkHTTPException 401 "Missing Authorization header".

Definition MalformedCredentials : HTTPException :=
  mkHTTPException 401 "Invalid Authorization header format".

Definition InvalidCredentials (e : HTTPException) : Prop :=
  e = mkHTTPException 401 "Invalid or expired token" \/
  e = mkHTTPException 401 "Invalid token payload" \/
  e = mkHTTPException 401 "User not found".

Definition Forbidden : HTTPException := mkHTTPException 403 "403 Forbidden".

(** The outcome is a 401 of the given class. *)
Definition raises_401 {A} (o : Outcome A) (class : HTTPException -> Prop) : Prop :=
  exists e, o = Raise e /\ class e /\ status_code e = 401.

(** The lifetime the handler uses:
    [request.expires_minutes or ACCESS_TOKEN_EXPIRE_MINUTES]. *)
Definition requested_minutes (request : TokenRequest) : Z :=
  int_or (expires_minutes request) ACCESS_TOKEN_EXPIRE_MINUTES.

(** The failures of token issuance and of product creation. *)
Definition DelegationForbidden : HTTPException :=
  mkHTTPException 403 "You can create JWT tokens only for your own account.".

Definition NotFound : HTTPException := mkHTTPException 404 "User not found".

Definition Conflict : HTTPException :=
  mkHTTPException 409 "Product name must be unique.".

(** The first row of the directory whose username is [v]. *)
Definition find_user (v : option jval) (db : Database) : option User :=
  List.find (fun u => sql_text_eq (username u) v) (users db).

(** ** Properties of the store and of a claim set *)

(** No two stored products have the same name. *)
Definition unique_names (db : Database) : Prop :=
  NoDup (map name (products db)).

(** A handler keeps the invariant of the store. *)
Definition keeps_unique_names {A} (h : Handler A) : Prop :=
  forall db, unique_names db -> unique_names (snd (h db)).

(** The same user record but for the [is_active] flag. *)
Definition same_but_active (u v : User) : Prop :=
  user_id u = user_id v /\ username u = username v /\ role u = role v /\
  hashed_password u = hashed_password v /\
  api_token_hash u = api_token_hash v /\
  token_expires_at u = token_expires_at v.

(** The record with the flag cleared, and the directory with every
    user deactivated. *)
Definition deactivate (u : User) : User :=
  mkUser (user_id u) (username u) (role u) (hashed_password u)
    (api_token_hash u) (token_expires_at u) (Some false).

Definition deactivate_all (db : Database) : Database :=
  mkDatabase (map deactivate (users db)) (products db).

(** Two outcomes of authentication that agree but for that flag. *)
Definition same_outcome_but_active (o1 o2 : Outcome User) : Prop :=
  match o1, o2 with
  | Return u, Return v => same_but_active u v
  | Raise e1, Raise e2 => e1 = e2
  | _, _ => False
  end.

(** ** A transparent codec

    An instance of the signing interface that writes the algorithm, the
    key and the claims in the clear.  It protects nothing; it shows that
    the law of the interface can be met, and gives closed examples
    something to run. *)
Module PlainCodec.

Fixpoint put_str (s rest : string) : string :=
  match s with
  | EmptyString => String "." rest
  | String c r => String "c" (String c (put_str r rest))
  end.

Fixpoint get_str (s : string) : option (string * string) :=
  match s with
  | String "." rest => Some (EmptyString, rest)
  | String "c" (String c r) =>
      match get_str r with
      | Some (x, rest) => Some (String c x, rest)
      | None => None
      end
  | _ => None
  end.

Fixpoint put_pos (p : positive) (rest : string) : string :=
  match p with
  | xH => String "1" rest
  | xO q => String "o" (put_pos q rest)
  | xI q => String "i" (put_pos q rest)
  end.

Fixpoint get_pos (s : string) : option (positive * string) :=
  match s with
  | String "1" rest => Some (xH, rest)
  | String "o" r =>
      match get_pos r with Some (q, rest) => Some (xO q, rest) | None => None end
  | String "i" r =>
      match get_pos r with Some (q, rest) => Some (xI q, rest) | None => None end
  | _ => None
  end.

Definition put_val (v : jval) (rest : string) : string :=
  match v with
  | JStr s => String "s" (put_str s rest)
  | JInt Z0 => String "0" rest
  | JInt (Zpos p) => String "+" (put_pos p rest)
  | JInt (Zneg p) => String "-" (put_pos p rest)
  end.

Definition get_val (s : string) : option (jval * string) :=
  match s with
  | String "s" r =>
      match get_str r with Some (x, rest) => Some (JStr x, rest) | None => None end
  | String "0" rest => Some (JInt 0, rest)
  | String "+" r =>
      match get_pos r with Some (p, rest) => Some (JInt (Zpos p), rest) | None => None end
  | String "-" r =>
      match get_pos r with Some (p, rest) => Some (JInt (Zneg p), rest) | None => None end
  | _ => None
  end.

Fixpoint put_items (l : list (string * jval)) (rest : string) : string :=
  match l with
  | [] => String "]" rest
  | (k, v) :: l' => String "," (put_str k (put_val v (put_items l' rest)))
  end.

Fixpoint get_items (fuel : nat) (s : string) : option (list (string * jval) * string) :=
  match fuel with
  | O => None
  | S fuel' =>
      match s with
      | String "]" rest => Some ([], rest)
      | String "," r =>
          match get_str r with
          | Some (k, r1) =>
              match get_val r1 with
              | Some (v, r2) =>
                  match get_items fuel' r2 with
                  | Some (l, rest) => Some ((k, v) :: l, rest)
                  | None => None
                  end
              | None => None
              end
          | None => None
          end
      | _ => None
      end
  end.

Definition sign (payload : gmap string jval) (key alg : string) : string :=
  put_str alg (put_str key (put_items (map_to_list payload) EmptyString)).

Definition verify (token key : string) (algs : list string)
  : JWSError + gmap string jval :=
  match get_str token with
  | Some (alg, r) =>
      match get_str r with
      | Some (key', r') =>
          match get_items (String.length r') r' with
          | Some (items, EmptyString) =>
              if bool_decide (alg ∈ algs) then
                if bool_decide (key' = key) then inr (list_to_map items)
                else inl BadSignature
              else inl AlgorithmMismatch
          | _ => inl Malformed
          end
      | None => inl Malformed
      end
  | None => inl Malformed
  end.

Definition codec : JWS := {|
  jws_sign := sign;
  jws_verify := verify;
  int_of_str := fun s => Z.of_int <$> NilZero.int_of_string s
|}.

End PlainCodec.

(** ** Example data

    The three users the seeding script creates, by name and role (the
    password digests play no part in any handler and are left out). *)
Module Demo.

Definition user (i : Z) (n r : string) : User :=
  mkUser i n r None None None (Some true).

Definition admin : User := user 1 "admin" "admin".
Definition alice : User := user 2 "alice" "privileged".
Definition bob : User := user 3 "bob" "nonadmin".

Definition directory : Database := mkDatabase [admin; alice; bob] [].

(** The token the transparent codec makes at [u1] for [u], valid for
    [minutes] minutes. *)
Definition token (u1 : datetime) (u : User) (minutes : Z) : string :=
  token_until (J := PlainCodec.codec) (u1 + timedelta_minutes minutes)
    (sub_role (username u) (role u)).

(** The authorization header carrying a token the transparent codec
    makes at instant 0 for [u], valid for one minute. *)
Definition bearer (u : User) : option string :=
  Some ("Bearer " ++ token 0 u 1)%string.

(** The directory after bob was promoted, and the one after bob was
    deactivated. *)
Definition bob_promoted : User := user 3 "bob" "privileged".

Definition promoted : Database := mkDatabase [admin; alice; bob_promoted] [].

Definition bob_inactive : User :=
  mkUser 3 "bob" "nonadmin" None None None (Some false).

Definition inactive : Database := mkDatabase [admin; alice; bob_inactive] [].

(** What [create_token] answers at clock readings [u1] and [u2] when a
    token of [minutes] minutes is made for [u]. *)
Definition response (u1 u2 : datetime) (u : User) (minutes : Z) : TokenResponse :=
  mkTokenResponse (token u1 u minutes)
    "bearer" (role u) (u2 + timedelta_minutes minutes).

Definition widget : ProductIn := mkProductIn "widget" None None.

Definition stocked : Database :=
  mkDatabase [admin; alice; bob] [mkProduct 1 "widget" None None].

End Demo.

(** ** create_test_users.py *)

(** The row id SQLite gives a new user: 1 in an empty table, else one
    more than the largest in use. *)
Definition next_user_id (us : list User) : Z :=
  match map user_id us with
  | [] => 1
  | i :: ids => 1 + fold_right Z.max i ids
  end.

Section Seeding.

(** [hashlib.sha256(b).hexdigest()] of the encoded text. *)
Variable sha256_hexdigest : string -> string.

Definition hash_password (p : string) : string := sha256_hexdigest p.

(** [Base.metadata.create_all]: both tables are there in every
    [Database]. *)
Definition create_tables (db : Database) : Database := db.

(** [create_user(username, role, password)]: the database the call
    leaves, and the lines it prints. *)
Definition create_user (username role password : string) (db : Database)
  : Database * list string :=
  let u := find_user (Some (JStr username)) db in
  match u with
  | Some _ => (db, [username ++ " already exists"]%string)
  | None =>
      let user :=
        mkUser (next_user_id (users db)) username role
          (Some (hash_password password)) None None (Some true) in
      (mkDatabase (users db ++ [user]) (products db),
       ["Created: " ++ username ++ " (" ++ role ++ ")"]%string)
  end.

(** The script's main block; [password] takes its default. *)
Definition main (db : Database) : Database * list string :=
  let db := create_tables db in
  let '(db, out1) := create_user "admin" "admin" "test123" db in
  let '(db, out2) := create_user "alice" "privileged" "test123" db in
  let '(db, out3) := create_user "bob" "nonadmin" "test123" db in
  (db, (out1 ++ out2 ++ out3)%list).

End Seeding.

(** No two rows of the directory have the same username. *)
Definition unique_usernames (db : Database) : Prop :=
  NoDup (map username (users db)).

(** ** The OpenAPI document *)

#[local] Unset Elimination Schemes.
Inductive json :=
| JsNull
| JsBool (b : bool)
| JsNumber (n : Z)
| JsString (s : string)
| JsArray (l : list json)
| JsObject (m : gmap string json).
#[local] Set Elimination Schemes.

(** [d.setdefault(k, default)]: the dictionary afterwards, and the value
    returned. *)
Definition setdefault (k : string) (default : json) (d : gmap string json)
  : gmap string json * json :=
  match d !! k with
  | Some v => (d, v)
  | None => (<[k := default]> d, default)
  end.

Definition HTTPBearer : json :=
  JsObject
    (<["type" := JsString "http"]>
       (<["scheme" := JsString "bearer"]>
          (<["bearerFormat" := JsString "JWT"]>
             (<["description" :=
                  JsString "Paste the JWT token here (no `Bearer ` prefix required)."]>
                ∅)))).

(** [custom_openapi()].  [generated] is what [get_openapi] returns for
    the application; [cached] is [app.openapi_schema] before the call.
    The result is the document returned with [app.openapi_schema] after
    the call, or [None] when an exception leaves the function (a value
    that is no dictionary where one is written into). *)
Definition custom_openapi (generated : gmap string json)
    (cached : option (gmap string json))
  : option (gmap string json * option (gmap string json)) :=
  if match cached with
     | Some schema => negb (bool_decide (schema = ∅))
     | None => false
     end
  then Some (default ∅ cached, cached)
  else
    let openapi_schema := generated in
    let '(openapi_schema, components) :=
      setdefault "components" (JsObject ∅) openapi_schema in
    match components with
    | JsObject components =>
        let '(components, schemes) :=
          setdefault "securitySchemes" (JsObject ∅) components in
        match schemes with
        | JsObject schemes =>
            let schemes := <["HTTPBearer" := HTTPBearer]> schemes in
            let components := <["securitySchemes" := JsObject schemes]> components in
            let openapi_schema :=
              <["components" := JsObject components]> openapi_schema in
            let openapi_schema :=
              <["security" :=
                  JsArray [JsObject (<["HTTPBearer" := JsArray []]> ∅)]]>
                openapi_schema in
            Some (openapi_schema, Some openapi_schema)
        | _ => None
        end
    | _ => None
    end.

(** Where a document is an object, its value under a key. *)
Definition json_get (k : string) (j : option json) : option json :=
  match j with
  | Some (JsObject m) => m !! k
  | _ => None
  end.

(** A place in a document that holds an object, or nothing. *)
Definition object_or_absent (j : option json) : Prop :=
  match j with
  | None | Some (JsObject _) => True
  | Some _ => False
  end.

(** ** Shapes of text *)

(** The text has no space in it. *)
Fixpoint spaceless (s : string) : bool :=
  match s with
  | EmptyString => true
  | String c r => negb (Ascii.eqb c " ") && spaceless r
  end.

(** ** More example data *)
Module Sample.

(** A stand-in for the digest: the examples do not read it. *)
Definition digest (p : string) : string := ("sha256:" ++ p)%string.

Definition empty : Database := mkDatabase [] [].


(** A product whose price is not a number, and a table whose only row
    has a negative id. *)
Definition priceless : ProductIn := mkProductIn "priceless" None (Some PrimFloat.nan).

Definition below_zero : Database :=
  mkDatabase [Demo.admin; Demo.alice; Demo.bob] [mkProduct (-3) "relic" None None].

Definition document : gmap string json :=
  <["openapi" := JsString "3.1.0"]>
    (<["components" :=
         JsObject (<["schemas" := JsObject ∅]> ∅)]> ∅).

End Sample.

(** * Proofs *)

(** ** Handlers that only read *)

Ltac run :=
  unfold bind, pure, raise, query_user_by_username, query_product_by_name,
    query_product_by_id, query_products_all in *; simpl in *.

Lemma str_truthy_true s : str_truthy s = true <-> s <> EmptyString.
Proof. destruct s; simpl; split; congruence. Qed.

Lemma truthy_lookup (payload : gmap string jval) k :
  truthy (payload !! k) = true -> payload <> ∅.
Proof. intros H ->. rewrite lookup_empty in H. discriminate. Qed.

Section ReadOnly.
Context {J : JWS}.

Lemma get_current_user_reads now authorization db :
  snd (get_current_user now authorization db) = db.
Proof.
  unfold get_current_user.
  destruct authorization as [h|]; [|reflexivity].
  destruct (str_truthy h); [|reflexivity]; simpl.
  destruct (partition " " h) as [[scheme sep] token].
  destruct (negb (String.eqb (lower scheme) "bearer") || negb (str_truthy token));
    [reflexivity|].
  destruct (negb (payload_truthy (decode_token now token))); [reflexivity|].
  destruct (negb (truthy (default ∅ (decode_token now token) !! "sub")));
    [reflexivity|].
  run. destruct (List.find _ (users db)); reflexivity.
Qed.

(** Past the header checks, with a claim set whose subject is truthy,
    authentication is the directory lookup of that subject. *)
Lemma get_current_user_lookup now header scheme sep token payload db :
  header <> EmptyString ->
  partition " " header = (scheme, sep, token) ->
  lower scheme = "bearer" -> token <> EmptyString ->
  decode_token now token = Some payload ->
  truthy (payload !! "sub") = true ->
  get_current_user now (Some header) db =
    (match find_user (payload !! "sub") db with
     | Some user => Return user
     | None => Raise (mkHTTPException 401 "User not found")
     end, db).
Proof.
  intros Hh Hp Hs Ht Hd Hsub. unfold get_current_user.
  apply str_truthy_true in Hh, Ht. rewrite Hh, Hp, Hs, Ht, Hd. simpl.
  rewrite bool_decide_eq_false_2 by (eapply truthy_lookup; eauto). simpl.
  rewrite Hsub. simpl. run. unfold find_user.
  destruct (List.find _ (users db)); reflexivity.
Qed.

End ReadOnly.

(** ** The authorization gate *)

(** C5.  For every caller and every list of allowed roles, the checker of
    [require_roles] returns the caller exactly when the caller's role is a
    member of the list and raises 403 exactly when it is not; two lists
    with the same members (in any order, with any repetition) give the same
    checker; and the database comes back as it went in. *)
Theorem require_roles_membership (roles : list string) (user : User) (db : Database) :
  (role user ∈ roles <-> require_roles roles user db = (Return user, db)) /\
  (role user ∉ roles <-> require_roles roles user db = (Raise Forbidden, db)) /\
  (forall roles' : list string,
      (forall r, r ∈ roles <-> r ∈ roles') ->
      require_roles roles' user db = require_roles roles user db) /\
  snd (require_roles roles user db) = db.
Proof.
  unfold require_roles, Forbidden.
  repeat split.
  - intros H. rewrite bool_decide_eq_true_2 by assumption. reflexivity.
  - case_bool_decide; [trivial|]. simpl. unfold raise. discriminate.
  - intros H. rewrite bool_decide_eq_false_2 by assumption. reflexivity.
  - case_bool_decide; simpl; unfold pure; [discriminate|trivial].
  - intros roles' Hsame.
    rewrite (bool_decide_ext (role user ∈ roles') (role user ∈ roles))
      by (symmetry; apply Hsame).
    reflexivity.
  - case_bool_decide; reflexivity.
Qed.

(** ** Authentication *)

Section Authentication.
Context {J : JWS}.

Lemma get_current_user_header now h scheme sep token db :
  h <> EmptyString -> partition " " h = (scheme, sep, token) ->
  get_current_user now (Some h) db =
    if negb (String.eqb (lower scheme) "bearer") || negb (str_truthy token)
    then (Raise MalformedCredentials, db)
    else if negb (payload_truthy (decode_token now token))
    then (Raise (mkHTTPException 401 "Invalid or expired token"), db)
    else if negb (truthy (default ∅ (decode_token now token) !! "sub"))
    then (Raise (mkHTTPException 401 "Invalid token payload"), db)
    else match find_user (default ∅ (decode_token now token) !! "sub") db with
         | Some user => (Return user, db)
         | None => (Raise (mkHTTPException 401 "User not found"), db)
         end.
Proof.
  intros Hh Hp. unfold get_current_user.
  apply str_truthy_true in Hh. rewrite Hh, Hp. simpl.
  destruct (negb (String.eqb (lower scheme) "bearer") || negb (str_truthy token));
    [reflexivity|].
  destruct (negb (payload_truthy (decode_token now token))); [reflexivity|].
  destruct (negb (truthy (default ∅ (decode_token now token) !! "sub")));
    [reflexivity|].
  run. unfold find_user. destruct (List.find _ (users db)); reflexivity.
Qed.

(** C2.  [get_current_user] on a raw header value.  It raises the 401 for
    a missing header exactly when the header is absent or empty.  For a
    header that is present and not empty, split at its first space, it
    raises the 401 for a malformed header exactly when the scheme is not
    "bearer" up to case or nothing follows the space.  Past both checks it
    raises a 401 of the invalid-credentials class when the token does not
    decode, when the claim set has no (or an empty) subject, and when no
    row of the directory has the subject as its username; otherwise it
    returns the first directory row for the subject.  The database is only
    read. *)
Theorem get_current_user_cases (now : datetime) (authorization : option string)
    (db : Database) :
  (fst (get_current_user now authorization db) = Raise MissingCredentials
     <-> authorization = None \/ authorization = Some EmptyString) /\
  (forall header scheme sep token,
      authorization = Some header -> header <> EmptyString ->
      partition " " header = (scheme, sep, token) ->
      (fst (get_current_user now authorization db) = Raise MalformedCredentials
         <-> lower scheme <> "bearer" \/ token = EmptyString) /\
      (lower scheme = "bearer" -> token <> EmptyString ->
         (decode_token now token = None ->
            raises_401 (fst (get_current_user now authorization db)) InvalidCredentials) /\
         (forall payload, decode_token now token = Some payload ->
            truthy (payload !! "sub") = false ->
            raises_401 (fst (get_current_user now authorization db)) InvalidCredentials) /\
         (forall payload, decode_token now token = Some payload ->
            truthy (payload !! "sub") = true ->
            find_user (payload !! "sub") db = None ->
            raises_401 (fst (get_current_user now authorization db)) InvalidCredentials) /\
         (forall payload user, decode_token now token = Some payload ->
            truthy (payload !! "sub") = true ->
            find_user (payload !! "sub") db = Some user ->
            fst (get_current_user now authorization db) = Return user))) /\
  snd (get_current_user now authorization db) = db.
Proof.
  split; [|split; [|apply get_current_user_reads]].
  - split.
    + destruct authorization as [h|]; [|auto].
      destruct (decide (h = EmptyString)) as [->|Hne]; [auto|].
      destruct (partition " " h) as [[scheme sep] token] eqn:Hp.
      rewrite (get_current_user_header _ _ _ _ _ _ Hne Hp).
      unfold MissingCredentials, MalformedCredentials.
      repeat match goal with
             | |- context [if ?b then _ else _] => destruct b
             | |- context [match ?o with Some _ => _ | None => _ end] => destruct o
             end; simpl; intros [=].
    + intros [->| ->]; reflexivity.
  - intros h scheme sep token -> Hne Hp.
    rewrite (get_current_user_header _ _ _ _ _ _ Hne Hp).
    split.
    + destruct (String.eqb_spec (lower scheme) "bearer") as [Hs|Hs]; simpl.
      * destruct token; simpl; [tauto|].
        split; [|intros [?|?]; congruence].
        unfold MalformedCredentials.
        repeat match goal with
               | |- context [if ?b then _ else _] => destruct b
               | |- context [match ?o with Some _ => _ | None => _ end] => destruct o
               end; simpl; intros [=].
      * tauto.
    + intros Hs Ht. rewrite Hs. apply str_truthy_true in Ht. rewrite Ht. simpl.
      unfold raises_401, InvalidCredentials.
      repeat split.
      * intros ->. simpl. eauto 8.
      * intros payload -> Hsub. simpl. rewrite Hsub.
        destruct (bool_decide (payload = ∅)); simpl; eauto 8.
      * intros payload -> Hsub Hfind. simpl.
        rewrite bool_decide_eq_false_2 by (eapply truthy_lookup; eauto).
        simpl. rewrite Hsub, Hfind. simpl. eauto 8.
      * intros payload user -> Hsub Hfind. simpl.
        rewrite bool_decide_eq_false_2 by (eapply truthy_lookup; eauto).
        simpl. rewrite Hsub, Hfind. reflexivity.
Qed.

End Authentication.

(** ** The token codec *)

(** What [jwt.encode] signs for the dictionary [create_access_token]
    builds: the data, with the expiry in whole seconds under "exp". *)
Lemma int_date_to_encode (data : gmap string jval) (d : datetime) :
  int_date <$> (<["exp" := CDatetime d]> (CJson <$> data))
  = <["exp" := JInt (timegm d)]> data.
Proof.
  rewrite fmap_insert, <- map_fmap_compose. simpl. f_equal.
  apply map_eq; intros k. rewrite lookup_fmap.
  destruct (data !! k); reflexivity.
Qed.

Lemma timegm_floor (d : datetime) :
  timegm d * 1000000 <= d < timegm d * 1000000 + 1000000.
Proof. unfold timegm. Z.div_mod_to_equations. lia. Qed.

Lemma plus_minutes_some (d : datetime) (minutes : Z) (e : datetime) :
  plus_minutes d minutes = Some e ->
  e = d + timedelta_minutes minutes /\ datetime_min <= e <= datetime_max.
Proof.
  unfold plus_minutes, timedelta.
  destruct (_ && _); [|discriminate].
  destruct ((datetime_min <=? d + timedelta_minutes minutes)
            && (d + timedelta_minutes minutes <=? datetime_max)) eqn:Hin;
    [|discriminate].
  apply andb_true_iff in Hin as [H1 H2]. apply Z.leb_le in H1, H2.
  intros [= <-]. auto.
Qed.

Lemma plus_minutes_in_range (d : datetime) (minutes : Z) :
  datetime_min <= d <= datetime_max ->
  datetime_min <= d + timedelta_minutes minutes <= datetime_max ->
  plus_minutes d minutes = Some (d + timedelta_minutes minutes).
Proof.
  intros Hd He. unfold plus_minutes, timedelta.
  assert (Hday : (-999999999 <=? timedelta_minutes minutes / 86400000000)
                 && (timedelta_minutes minutes / 86400000000 <=? 999999999) = true).
  { apply andb_true_iff. rewrite !Z.leb_le.
    unfold datetime_min, datetime_max in *. Z.div_mod_to_equations. lia. }
  rewrite Hday.
  rewrite (proj2 (andb_true_iff _ _)); [reflexivity|].
  rewrite !Z.leb_le. exact He.
Qed.

Lemma plus_minutes_late (d : datetime) (minutes : Z) :
  datetime_max < d + timedelta_minutes minutes -> plus_minutes d minutes = None.
Proof.
  intros Hlate. destruct (plus_minutes d minutes) as [e|] eqn:He; [|reflexivity].
  apply plus_minutes_some in He as [-> [_ Hmax]]. lia.
Qed.

Section CodecFacts.
Context {J : JWS}.

Lemma create_access_token_unfold utcnow data minutes :
  create_access_token utcnow data minutes =
    match plus_minutes utcnow minutes with
    | None => inl OverflowError
    | Some expire => inr (token_until expire data)
    end.
Proof. reflexivity. Qed.


Lemma jwt_decode_invalid now token e :
  jwt_decode now token SECRET_KEY [ALGORITHM] = inl e <-> invalid_token now token e.
Proof.
  unfold jwt_decode, validate_exp. split.
  - destruct (jws_verify token SECRET_KEY [ALGORITHM]) as [[]|payload] eqn:Hv;
      simpl; try (intros [= <-]; constructor; assumption).
    destruct (payload !! "exp") as [v|] eqn:Hexp; [|discriminate].
    destruct (int_claim v) as [exp|] eqn:Hint.
    + destruct (Z.leb_spec (exp * 1000000) now); intros [= <-].
      eapply invalid_expired; eauto.
    + intros [= <-]. eapply invalid_exp_type; eauto.
  - intros [H|H|H|payload v H Hexp Hint|payload v exp H Hexp Hint Hle];
      rewrite H; simpl; try reflexivity; rewrite Hexp, Hint; [reflexivity|].
    destruct (Z.leb_spec (exp * 1000000) now); [reflexivity|lia].
Qed.

(** C4.  [decode_token] returns [None] exactly for the invalid tokens: a
    signature that does not verify, an algorithm other than the fixed one,
    a malformed token, or an [exp] that has passed at the time of the
    call; the exception the library raised tells which.  In particular a
    verified token read after the instant its [exp] names is refused. *)
Theorem decode_token_none_iff_invalid (now : datetime) (token : string) :
  (decode_token now token = None <-> exists e, invalid_token now token e) /\
  (forall e, jwt_decode now token SECRET_KEY [ALGORITHM] = inl e
             <-> invalid_token now token e) /\
  (forall payload v exp,
      jws_verify token SECRET_KEY [ALGORITHM] = inr payload ->
      payload !! "exp" = Some v -> int_claim v = Some exp ->
      exp * 1000000 < now ->
      decode_token now token = None).
Proof.
  assert (Hnone : decode_token now token = None <-> exists e, invalid_token now token e).
  { unfold decode_token.
    destruct (jwt_decode now token SECRET_KEY [ALGORITHM]) as [e|payload] eqn:Hd.
    - split; [|reflexivity]. intros _. exists e. apply jwt_decode_invalid, Hd.
    - split; [discriminate|]. intros [e He].
      apply jwt_decode_invalid in He. congruence. }
  split; [exact Hnone|split].
  - intros e. apply jwt_decode_invalid.
  - intros payload v exp Hv Hexp Hint Hlt. apply Hnone.
    exists ExpiredSignatureError. eapply invalid_expired; eauto. lia.
Qed.

Context {L : JWSLaws J}.

Lemma decode_token_until now expire data :
  now < timegm expire * 1000000 ->
  decode_token now (token_until expire data)
  = Some (<["exp" := JInt (timegm expire)]> data).
Proof.
  intros Hnow. unfold decode_token, token_until, jwt_decode, jwt_encode.
  rewrite int_date_to_encode. unfold ALGORITHM. rewrite verify_sign.
  unfold validate_exp. rewrite lookup_insert_eq. simpl.
  destruct (Z.leb_spec (timegm expire * 1000000) now); [lia|reflexivity].
Qed.

(** C3, as amended.  For every username and role and every lifetime of
    [t > 0] minutes, read at a clock that shows a [datetime]: when the
    expiry, the clock reading plus [t] minutes, is still a [datetime],
    [create_access_token] returns a token, the token is not yet expired
    at the instant it is made, and at every instant before its expiry
    [decode_token] succeeds on it with a claim set whose "sub" is the
    username and whose "role" is the role; when the expiry lies beyond
    the last [datetime], the call ends in [OverflowError] and there is no
    token. *)
Theorem decode_token_create_access_token (utcnow : datetime) (u r : string) (t : Z) :
  0 < t ->
  datetime_min <= utcnow <= datetime_max ->
  (utcnow + timedelta_minutes t <= datetime_max ->
   exists token,
     create_access_token utcnow (sub_role u r) t = inr token /\
     utcnow < timegm (utcnow + timedelta_minutes t) * 1000000 /\
     forall now, now < timegm (utcnow + timedelta_minutes t) * 1000000 ->
       exists payload,
         decode_token now token = Some payload /\
         payload !! "sub" = Some (JStr u) /\
         payload !! "role" = Some (JStr r) /\
         payload !! "exp" = Some (JInt (timegm (utcnow + timedelta_minutes t)))) /\
  (datetime_max < utcnow + timedelta_minutes t ->
   create_access_token utcnow (sub_role u r) t = inl OverflowError).
Proof.
  intros Ht Hclock. split.
  - intros Hfits. eexists. split; [|split].
    + rewrite create_access_token_unfold, plus_minutes_in_range;
        [reflexivity|exact Hclock|].
      unfold timedelta_minutes in *. lia.
    + pose proof (timegm_floor (utcnow + timedelta_minutes t)) as H.
      unfold timedelta_minutes in *. lia.
    + intros now Hnow. eexists. split; [apply decode_token_until, Hnow|].
      unfold sub_role. split; [|split].
      * rewrite lookup_insert_ne, lookup_insert_eq by discriminate. reflexivity.
      * rewrite !lookup_insert_ne, lookup_insert_eq by discriminate. reflexivity.
      * rewrite lookup_insert_eq. reflexivity.
  - intros Hlate. rewrite create_access_token_unfold, plus_minutes_late by exact Hlate.
    reflexivity.
Qed.

End CodecFacts.

(** ** The transparent codec meets the laws *)

Module PlainCodecFacts.
Import PlainCodec.

Lemma get_put_str s rest : get_str (put_str s rest) = Some (s, rest).
Proof. induction s as [|c r IH]; simpl; [reflexivity|]. rewrite IH. reflexivity. Qed.

Lemma get_put_pos p rest : get_pos (put_pos p rest) = Some (p, rest).
Proof. induction p as [q IH|q IH|]; simpl; try rewrite IH; reflexivity. Qed.

Lemma get_put_val v rest : get_val (put_val v rest) = Some (v, rest).
Proof.
  destruct v as [s|[|p|p]]; simpl; try reflexivity.
  - rewrite get_put_str. reflexivity.
  - rewrite get_put_pos. reflexivity.
  - rewrite get_put_pos. reflexivity.
Qed.

Lemma get_put_items l rest fuel :
  (length l < fuel)%nat -> get_items fuel (put_items l rest) = Some (l, rest).
Proof.
  revert fuel. induction l as [|[k v] l IH]; intros [|fuel] Hlen; simpl in *;
    try lia; [reflexivity|].
  rewrite get_put_str, get_put_val, IH by lia. reflexivity.
Qed.

Lemma put_str_length s rest : (String.length rest < String.length (put_str s rest))%nat.
Proof. induction s; simpl; lia. Qed.

Lemma put_pos_length p rest : (String.length rest < String.length (put_pos p rest))%nat.
Proof. induction p; simpl; lia. Qed.

Lemma put_val_length v rest : (String.length rest < String.length (put_val v rest))%nat.
Proof.
  destruct v as [s|[|p|p]]; simpl; try lia.
  - pose proof (put_str_length s rest). lia.
  - pose proof (put_pos_length p rest). lia.
  - pose proof (put_pos_length p rest). lia.
Qed.

Lemma put_items_length l rest : (length l < String.length (put_items l rest))%nat.
Proof.
  induction l as [|[k v] l IH]; simpl; [lia|].
  pose proof (put_str_length k (put_val v (put_items l rest))).
  pose proof (put_val_length v (put_items l rest)). lia.
Qed.

Lemma verify_sign_plain payload key alg :
  verify (sign payload key alg) key [alg] = inr payload.
Proof.
  unfold verify, sign. rewrite !get_put_str.
  rewrite get_put_items by apply put_items_length.
  rewrite bool_decide_eq_true_2 by (apply list_elem_of_singleton; reflexivity).
  rewrite bool_decide_eq_true_2 by reflexivity.
  rewrite list_to_map_to_list. reflexivity.
Qed.

Lemma codec_laws : JWSLaws codec.
Proof.
  split.
  - intros payload key. apply verify_sign_plain.
  - intros payload key [|c alg]; discriminate.
Qed.

End PlainCodecFacts.

(** ** Token issuance *)

Lemma find_user_none s db :
  find_user (Some (JStr s)) db = None
  <-> forall u, In u (users db) -> username u <> s.
Proof.
  unfold find_user. split.
  - intros H u Hin Heq.
    apply (find_none _ _ H) in Hin. simpl in Hin.
    rewrite Heq, String.eqb_refl in Hin. discriminate.
  - intros H. destruct (List.find _ (users db)) as [u|] eqn:Hf; [|reflexivity].
    apply find_some in Hf as [Hin Heq]. simpl in Heq.
    apply String.eqb_eq in Heq. destruct (H u Hin Heq).
Qed.

Lemma find_user_some s db user :
  find_user (Some (JStr s)) db = Some user -> In user (users db) /\ username user = s.
Proof.
  unfold find_user. intros Hf. apply find_some in Hf as [Hin Heq].
  split; [assumption|]. apply String.eqb_eq, Heq.
Qed.

Section Issuance.
Context {J : JWS}.

Lemma create_token_unfold u1 u2 request caller db :
  create_token u1 u2 request caller db =
    if bool_decide (role caller <> "admin")
       && bool_decide (username caller <> req_username request)
    then (Raise DelegationForbidden, db)
    else match find_user (Some (JStr (req_username request))) db with
         | None => (Raise NotFound, db)
         | Some user =>
             match plus_minutes u1 (requested_minutes request),
                   plus_minutes u2 (requested_minutes request) with
             | Some expire, Some expires_at =>
                 (Return
                    (mkTokenResponse
                       (token_until expire (sub_role (username user) (role user)))
                       "bearer" (role user) expires_at),
                  db)
             | _, _ => (Uncaught OverflowError, db)
             end
         end.
Proof.
  unfold create_token, find_user, requested_minutes.
  destruct (bool_decide (role caller <> "admin")
            && bool_decide (username caller <> req_username request)); [reflexivity|].
  run. destruct (List.find _ (users db)); [|reflexivity].
  rewrite create_access_token_unfold.
  destruct (plus_minutes u1 _); [|reflexivity].
  destruct (plus_minutes u2 _); reflexivity.
Qed.

(** C1, as amended.  [create_token] raises the 403 exactly when the
    caller is not an admin and names another user; it raises the 404
    exactly when the caller is an admin or names themselves and no row of
    the directory has the requested username; it returns a token exactly
    when the caller is an admin or names themselves, such a row exists,
    and both clock readings plus the requested lifetime are [datetime]s;
    it ends in [OverflowError] exactly when the caller is an admin or
    names themselves, such a row exists, and one of the two sums is not a
    [datetime].  The database is only read. *)
Theorem create_token_delegation (u1 u2 : datetime) (request : TokenRequest)
    (caller : User) (db : Database) :
  (fst (create_token u1 u2 request caller db) = Raise DelegationForbidden
     <-> role caller <> "admin" /\ username caller <> req_username request) /\
  (fst (create_token u1 u2 request caller db) = Raise NotFound
     <-> (role caller = "admin" \/ username caller = req_username request) /\
         forall u, In u (users db) -> username u <> req_username request) /\
  ((exists resp, fst (create_token u1 u2 request caller db) = Return resp)
     <-> (role caller = "admin" \/ username caller = req_username request) /\
         (exists u, In u (users db) /\ username u = req_username request) /\
         is_Some (plus_minutes u1 (requested_minutes request)) /\
         is_Some (plus_minutes u2 (requested_minutes request))) /\
  (fst (create_token u1 u2 request caller db) = Uncaught OverflowError
     <-> (role caller = "admin" \/ username caller = req_username request) /\
         (exists u, In u (users db) /\ username u = req_username request) /\
         (plus_minutes u1 (requested_minutes request) = None \/
          plus_minutes u2 (requested_minutes request) = None)) /\
  snd (create_token u1 u2 request caller db) = db.
Proof.
  rewrite create_token_unfold.
  assert (Hgate : bool_decide (role caller <> "admin")
                  && bool_decide (username caller <> req_username request) = false
                  <-> role caller = "admin" \/ username caller = req_username request).
  { rewrite andb_false_iff, !bool_decide_eq_false.
    destruct (decide (role caller = "admin")), (decide (username caller = req_username request));
      tauto. }
  destruct (bool_decide (role caller <> "admin")
            && bool_decide (username caller <> req_username request)) eqn:Hb.
  - apply andb_true_iff in Hb as [Hr Hu].
    apply bool_decide_eq_true in Hr, Hu. simpl.
    split; [tauto|]. split; [|split; [|split; [|reflexivity]]].
    + split; [discriminate|]. intros [[?|?] _]; contradiction.
    + split; [intros [? [=]]|]. intros [[?|?] _]; contradiction.
    + split; [discriminate|]. intros [[?|?] _]; contradiction.
  - clear Hb. pose proof (proj1 Hgate eq_refl) as Hb.
    assert (Hnot : ~ (role caller <> "admin" /\ username caller <> req_username request))
      by (destruct Hb; tauto).
    destruct (find_user (Some (JStr (req_username request))) db) as [user|] eqn:Hf.
    + apply find_user_some in Hf as [Hin Hname].
      assert (Hrow : exists u, In u (users db) /\ username u = req_username request)
        by eauto.
      destruct (plus_minutes u1 (requested_minutes request)) as [e1|];
        [destruct (plus_minutes u2 (requested_minutes request)) as [e2|]|]; simpl.
      * split; [split; [discriminate|tauto]|]. split; [|split; [|split; [|reflexivity]]].
        -- split; [discriminate|]. intros [_ Hno]. destruct (Hno user Hin Hname).
        -- split; eauto 10.
        -- split; [discriminate|]. intros (_ & _ & [[=]|[=]]).
      * split; [split; [discriminate|tauto]|]. split; [|split; [|split; [|reflexivity]]].
        -- split; [discriminate|]. intros [_ Hno]. destruct (Hno user Hin Hname).
        -- split; [intros [? [=]]|]. intros (_ & _ & _ & [? [=]]).
        -- split; auto.
      * split; [split; [discriminate|tauto]|]. split; [|split; [|split; [|reflexivity]]].
        -- split; [discriminate|]. intros [_ Hno]. destruct (Hno user Hin Hname).
        -- split; [intros [? [=]]|]. intros (_ & _ & [? [=]] & _).
        -- split; auto.
    + pose proof (proj1 (find_user_none _ _) Hf) as Hno. simpl.
      split; [split; [discriminate|tauto]|]. split; [|split; [|split; [|reflexivity]]].
      * split; auto.
      * split; [intros [? [=]]|]. intros (_ & [u [Hin Hname]] & _).
        destruct (Hno u Hin Hname).
      * split; [discriminate|]. intros (_ & [u [Hin Hname]] & _).
        destruct (Hno u Hin Hname).
Qed.

(** C6, as amended.  When the request leaves the lifetime out, gives
    [null] or gives zero, [create_token] uses the default of 15 minutes;
    a positive lifetime is used as it was given.  In each of these cases
    the token is made with that positive number of minutes and
    [expires_at] is the clock reading plus that many minutes, hence later
    than the clock reading. *)
Theorem create_token_positive_lifetime (u1 u2 : datetime) (target : string)
    (minutes_field : json_field Z) (caller : User) (db : Database)
    (resp : TokenResponse) :
  fst (create_token u1 u2 (parse_TokenRequest target minutes_field) caller db)
    = Return resp ->
  (minutes_field = Absent \/ minutes_field = Null \/
   exists n, minutes_field = Given n /\ 0 <= n) ->
  exists (minutes : Z) (user : User),
    find_user (Some (JStr target)) db = Some user /\
    0 < minutes /\
    (minutes_field = Absent \/ minutes_field = Null \/ minutes_field = Given 0 ->
       minutes = 15) /\
    (forall n, minutes_field = Given n -> 0 < n -> minutes = n) /\
    create_access_token u1 (sub_role (username user) (role user)) minutes
      = inr (access_token resp) /\
    expires_at resp = u2 + timedelta_minutes minutes /\
    u2 < expires_at resp.
Proof.
  rewrite create_token_unfold. intros Hret Hreq.
  destruct (bool_decide (role caller <> "admin") && _); [discriminate|].
  simpl in Hret.
  destruct (find_user (Some (JStr target)) db) as [user|]; [|discriminate].
  destruct (plus_minutes u1 _) as [e1|] eqn:H1; [|discriminate].
  destruct (plus_minutes u2 _) as [e2|] eqn:H2; [|discriminate].
  injection Hret as <-.
  apply plus_minutes_some in H2 as [-> _].
  exists (requested_minutes (parse_TokenRequest target minutes_field)), user.
  split; [reflexivity|].
  assert (Hdone : forall minutes,
             requested_minutes (parse_TokenRequest target minutes_field) = minutes ->
             0 < minutes ->
             create_access_token u1 (sub_role (username user) (role user))
               (requested_minutes (parse_TokenRequest target minutes_field))
               = inr (token_until e1 (sub_role (username user) (role user))) /\
             u2 + timedelta_minutes (requested_minutes
                                       (parse_TokenRequest target minutes_field))
               = u2 + timedelta_minutes minutes /\
             u2 < u2 + timedelta_minutes
                         (requested_minutes (parse_TokenRequest target minutes_field))).
  { intros minutes Hm Hpos. rewrite create_access_token_unfold, H1, Hm.
    unfold timedelta_minutes. repeat split; lia. }
  cbn [access_token expires_at].
  destruct Hreq as [->|[->|[n [-> Hn]]]].
  - split; [reflexivity|]. split; [reflexivity|]. split; [intros n [=]|].
    apply (Hdone 15); [reflexivity|lia].
  - split; [reflexivity|]. split; [reflexivity|]. split; [intros n [=]|].
    apply (Hdone 15); [reflexivity|lia].
  - destruct (Z.eqb_spec n 0) as [->|Hnz].
    + split; [reflexivity|]. split; [reflexivity|]. split; [intros n [= <-]; lia|].
      apply (Hdone 15); [reflexivity|lia].
    + assert (Hm : requested_minutes (parse_TokenRequest target (Given n)) = n).
      { unfold requested_minutes, int_or. simpl.
        destruct (Z.eqb_spec n 0); [contradiction|reflexivity]. }
      rewrite Hm in *. split; [lia|]. split; [|split].
      * intros [[=]|[[=]|[= ->]]]. lia.
      * intros m [= <-] _. reflexivity.
      * destruct (Hdone n eq_refl) as (Ha & Hb & Hc); [lia|]. auto.
Qed.

End Issuance.

(** C1, the claim as written fails: alice is not an admin, and asks for
    a token for a username that is in no row of the directory; the answer
    is the 403 of the delegation rule, not the 404. *)
Lemma create_token_unknown_target_forbidden :
  In Demo.alice (users Demo.directory) /\
  role Demo.alice <> "admin" /\
  (forall u, In u (users Demo.directory) -> username u <> "ghost") /\
  fst (create_token (J := PlainCodec.codec) 0 0 (parse_TokenRequest "ghost" Absent)
         Demo.alice Demo.directory)
    = Raise (mkHTTPException 403 "You can create JWT tokens only for your own account.") /\
  fst (create_token (J := PlainCodec.codec) 0 0 (parse_TokenRequest "ghost" Absent)
         Demo.alice Demo.directory)
    <> Raise (mkHTTPException 404 "User not found").
Proof.
  repeat split.
  - simpl. tauto.
  - discriminate.
  - intros u [<-|[<-|[<-|[]]]]; discriminate.
  - discriminate.
Qed.

(** C3, the claim as written fails: a lifetime of 10 000 000 000
    minutes is positive, and in November 2023 the expiry it asks for lies
    beyond the year 9999; [create_access_token] ends in [OverflowError],
    so there is no token to decode. *)
Lemma create_access_token_overflow :
  0 < 10000000000 /\
  datetime_min <= 1700000000000000 <= datetime_max /\
  create_access_token (J := PlainCodec.codec) 1700000000000000
    (sub_role "alice" "privileged") 10000000000 = inl OverflowError /\
  ~ exists token,
      create_access_token (J := PlainCodec.codec) 1700000000000000
        (sub_role "alice" "privileged") 10000000000 = inr token.
Proof.
  split; [reflexivity|]. split; [split; discriminate|]. split; [reflexivity|].
  intros [token [=]].
Qed.

(** C6, the claim as written fails: alice asks for a lifetime of -5
    minutes at clock reading 1 s.  The request is served; the lifetime is
    not replaced by the default; [expires_at] lies five minutes before the
    clock reading, and so does the [exp] the token carries. *)
Lemma create_token_negative_minutes :
  fst (create_token (J := PlainCodec.codec) 1000000 1000000
         (parse_TokenRequest "alice" (Given (-5))) Demo.alice Demo.directory)
    = Return (Demo.response 1000000 1000000 Demo.alice (-5)) /\
  expires_at (Demo.response 1000000 1000000 Demo.alice (-5)) = -299000000 /\
  expires_at (Demo.response 1000000 1000000 Demo.alice (-5))
    <> 1000000 + timedelta_minutes 15 /\
  expires_at (Demo.response 1000000 1000000 Demo.alice (-5)) < 1000000 /\
  PlainCodec.verify
    (access_token (Demo.response 1000000 1000000 Demo.alice (-5)))
    SECRET_KEY [ALGORITHM]
    = inr (<["exp" := JInt (-299)]> (sub_role "alice" "privileged")).
Proof.
  split; [reflexivity|]. split; [reflexivity|]. split; [discriminate|].
  split; [reflexivity|].
  unfold Demo.response, Demo.token, access_token, token_until, jwt_encode.
  rewrite int_date_to_encode. apply PlainCodecFacts.verify_sign_plain.
Qed.

(** ** The directory decides, not the token *)

Lemma find_same_but_active (v : option jval) (us1 us2 : list User) :
  Forall2 same_but_active us1 us2 ->
  match List.find (fun u => sql_text_eq (username u) v) us1,
        List.find (fun u => sql_text_eq (username u) v) us2 with
  | Some u1, Some u2 => same_but_active u1 u2
  | None, None => True
  | _, _ => False
  end.
Proof.
  induction 1 as [|u1 u2 us1 us2 Hsame _ IH]; simpl; [exact I|].
  pose proof Hsame as (_ & Hname & _). rewrite <- Hname.
  destruct (sql_text_eq (username u1) v); assumption.
Qed.

Lemma same_but_active_deactivate (us : list User) :
  Forall2 same_but_active us (map deactivate us).
Proof.
  induction us as [|u us IH]; simpl; constructor; [|assumption].
  repeat split.
Qed.

Section Directory.
Context {J : JWS}.

Lemma get_current_user_same_but_active now authorization db1 db2 :
  Forall2 same_but_active (users db1) (users db2) ->
  same_outcome_but_active (fst (get_current_user now authorization db1))
                          (fst (get_current_user now authorization db2)).
Proof.
  intros Hsame.
  destruct authorization as [h|]; [|reflexivity].
  destruct (decide (h = EmptyString)) as [->|Hne]; [reflexivity|].
  destruct (partition " " h) as [[scheme sep] token] eqn:Hp.
  rewrite !(get_current_user_header _ _ _ _ _ _ Hne Hp).
  repeat match goal with
         | |- context [if ?b then _ else _] => destruct b; [reflexivity|]
         end.
  unfold find_user.
  pose proof (find_same_but_active (default ∅ (decode_token now token) !! "sub")
                _ _ Hsame) as Hfind.
  destruct (List.find _ (users db1)), (List.find _ (users db2));
    simpl; tauto.
Qed.

(** C8.  Authentication does not look at [is_active]: on two directories
    whose rows agree but for that flag, the same header at the same
    instant gives the same exception, or gives two rows that agree but
    for the flag.  In particular, whenever a header authenticates as some
    user it still does so in the directory where every user has been
    deactivated. *)
Theorem get_current_user_ignores_is_active (now : datetime)
    (authorization : option string) (db1 db2 : Database) :
  Forall2 same_but_active (users db1) (users db2) ->
  same_outcome_but_active (fst (get_current_user now authorization db1))
                          (fst (get_current_user now authorization db2)) /\
  (forall user,
      fst (get_current_user now authorization db1) = Return user ->
      exists user',
        fst (get_current_user now authorization (deactivate_all db1)) = Return user' /\
        is_active user' = Some false /\
        same_but_active user user').
Proof.
  intros Hsame. split; [apply get_current_user_same_but_active, Hsame|].
  intros user Hret.
  pose proof (get_current_user_same_but_active now authorization db1
                (deactivate_all db1) (same_but_active_deactivate (users db1))) as H.
  rewrite Hret in H. simpl in H.
  destruct (fst (get_current_user now authorization (deactivate_all db1)))
    as [user'|e|x] eqn:Hd; [|destruct H..].
  exists user'. split; [reflexivity|]. split; [|assumption].
  (* the row comes from the deactivated directory *)
  clear H Hret.
  destruct authorization as [h|]; [|discriminate].
  destruct (decide (h = EmptyString)) as [->|Hne]; [discriminate|].
  destruct (partition " " h) as [[scheme sep] token] eqn:Hp.
  rewrite (get_current_user_header _ _ _ _ _ _ Hne Hp) in Hd.
  repeat match type of Hd with
         | context [if ?b then _ else _] => destruct b; [discriminate|]
         end.
  unfold find_user in Hd.
  destruct (List.find _ (users (deactivate_all db1))) as [u|] eqn:Hf; [|discriminate].
  injection Hd as <-. apply find_some in Hf as [Hin _].
  simpl in Hin. apply in_map_iff in Hin as [u0 [<- _]]. reflexivity.
Qed.

Lemma get_current_user_in_directory now authorization db caller :
  fst (get_current_user now authorization db) = Return caller ->
  In caller (users db).
Proof.
  destruct authorization as [h|]; [|discriminate].
  destruct (decide (h = EmptyString)) as [->|Hne]; [discriminate|].
  destruct (partition " " h) as [[scheme sep] token] eqn:Hp.
  rewrite (get_current_user_header _ _ _ _ _ _ Hne Hp).
  repeat match goal with
         | |- context [if ?b then _ else _] => destruct b; [discriminate|]
         end.
  unfold find_user.
  destruct (List.find _ (users db)) as [u|] eqn:Hf; [|discriminate].
  intros [= <-]. apply find_some in Hf as [Hin _]. exact Hin.
Qed.

Lemma depends_require_roles_after roles now authorization db caller :
  get_current_user now authorization db = (Return caller, db) ->
  (fst (depends_require_roles roles now authorization db) = Return caller
     <-> role caller ∈ roles) /\
  (fst (depends_require_roles roles now authorization db) = Raise Forbidden
     <-> role caller ∉ roles).
Proof.
  intros Hauth. unfold depends_require_roles, bind. rewrite Hauth.
  unfold require_roles, Forbidden. case_bool_decide; simpl; split; split;
    try discriminate; try tauto.
Qed.

Context {L : JWSLaws J}.

Lemma token_until_nonempty expire data : token_until expire data <> EmptyString.
Proof. unfold token_until, jwt_encode. apply sign_nonempty. Qed.

(** C7.  Whenever a request authenticates, the caller handed to the gate
    is a row of the directory, and the gate admits the request exactly
    when that row's role is among the allowed ones.  Two tokens that
    decode to the same subject authenticate alike, whatever else they
    carry (a "role" claim among it).  And when a token was issued for a
    user while the directory was [db_old], and the directory is [db_new]
    when the token is presented before its expiry: the caller is the row
    of [db_new] for that username, the gate decides by the role in that
    row, and the token still decodes to the role the user had in
    [db_old]. *)
Theorem gate_follows_directory_role :
  (forall now authorization db caller roles,
      fst (get_current_user now authorization db) = Return caller ->
      In caller (users db) /\
      (fst (depends_require_roles roles now authorization db) = Return caller
         <-> role caller ∈ roles) /\
      (fst (depends_require_roles roles now authorization db) = Raise Forbidden
         <-> role caller ∉ roles)) /\
  (forall now token1 token2 payload1 payload2 db,
      token1 <> EmptyString -> token2 <> EmptyString ->
      decode_token now token1 = Some payload1 ->
      decode_token now token2 = Some payload2 ->
      payload1 !! "sub" = payload2 !! "sub" ->
      truthy (payload1 !! "sub") = true ->
      get_current_user now (Some ("Bearer " ++ token1)%string) db
      = get_current_user now (Some ("Bearer " ++ token2)%string) db) /\
  (forall u1 u2 request issuer db_old resp now db_new user_new roles,
      fst (create_token u1 u2 request issuer db_old) = Return resp ->
      req_username request <> EmptyString ->
      now < timegm (u1 + timedelta_minutes
                           (int_or (expires_minutes request)
                                   ACCESS_TOKEN_EXPIRE_MINUTES)) * 1000000 ->
      find_user (Some (JStr (req_username request))) db_new = Some user_new ->
      get_current_user now (Some ("Bearer " ++ access_token resp)%string) db_new
        = (Return user_new, db_new) /\
      (fst (depends_require_roles roles now
              (Some ("Bearer " ++ access_token resp)%string) db_new) = Return user_new
         <-> role user_new ∈ roles) /\
      exists user_old payload,
        find_user (Some (JStr (req_username request))) db_old = Some user_old /\
        resp_role resp = role user_old /\
        decode_token now (access_token resp) = Some payload /\
        payload !! "role" = Some (JStr (role user_old))).
Proof.
  split; [|split].
  - intros now authorization db caller roles Hret.
    split; [eapply get_current_user_in_directory, Hret|].
    apply depends_require_roles_after.
    rewrite (surjective_pairing (get_current_user now authorization db)).
    rewrite Hret, get_current_user_reads. reflexivity.
  - intros now token1 token2 payload1 payload2 db Ht1 Ht2 Hd1 Hd2 Hsub Htruthy.
    rewrite (get_current_user_lookup now _ "Bearer" " " token1 payload1 db),
      (get_current_user_lookup now _ "Bearer" " " token2 payload2 db);
      try reflexivity; try discriminate; try assumption.
    + rewrite Hsub. reflexivity.
    + rewrite <- Hsub. exact Htruthy.
  - intros u1 u2 request issuer db_old resp now db_new user_new roles
      Hissue Hname Hnow Hnew.
    rewrite create_token_unfold in Hissue.
    destruct (bool_decide (role issuer <> "admin")
              && bool_decide (username issuer <> req_username request));
      [discriminate|].
    destruct (find_user (Some (JStr (req_username request))) db_old)
      as [user_old|] eqn:Hold; [|discriminate].
    fold (requested_minutes request) in Hnow.
    destruct (plus_minutes u1 (requested_minutes request)) as [e1|] eqn:H1;
      [|discriminate].
    destruct (plus_minutes u2 (requested_minutes request)) as [e2|]; [|discriminate].
    apply plus_minutes_some in H1 as [-> _].
    injection Hissue as <-. cbn [access_token resp_role].
    pose proof (find_user_some _ _ _ Hold) as [_ Hsub].
    set (minutes := requested_minutes request) in *.
    set (token := token_until (u1 + timedelta_minutes minutes)
                    (sub_role (username user_old) (role user_old))).
    pose proof (decode_token_until now (u1 + timedelta_minutes minutes)
                  (sub_role (username user_old) (role user_old)) Hnow) as Hdec.
    fold token in Hdec.
    set (payload := <["exp" := JInt (timegm (u1 + timedelta_minutes minutes))]>
                      (sub_role (username user_old) (role user_old))) in *.
    assert (Hpsub : payload !! "sub" = Some (JStr (req_username request))).
    { unfold payload, sub_role.
      rewrite lookup_insert_ne, lookup_insert_eq, Hsub by discriminate. reflexivity. }
    assert (Hauth : get_current_user now (Some ("Bearer " ++ token)%string) db_new
                    = (Return user_new, db_new)).
    { pose proof (get_current_user_lookup now ("Bearer " ++ token)%string
                    "Bearer" " " token payload db_new) as Hlook.
      rewrite Hpsub, Hnew in Hlook. apply Hlook.
      - discriminate.
      - reflexivity.
      - reflexivity.
      - apply token_until_nonempty.
      - exact Hdec.
      - simpl. apply str_truthy_true, Hname. }
    split; [exact Hauth|]. split.
    + apply depends_require_roles_after, Hauth.
    + exists user_old, payload.
      split; [reflexivity|]. split; [reflexivity|]. split; [exact Hdec|].
      unfold payload, sub_role.
      rewrite !lookup_insert_ne, lookup_insert_eq by discriminate. reflexivity.
Qed.

End Directory.

(** ** The product store *)

Lemma keeps_bind {A B} (m : Handler A) (k : A -> Handler B) :
  keeps_unique_names m -> (forall a, keeps_unique_names (k a)) ->
  keeps_unique_names (bind m k).
Proof.
  intros Hm Hk db Hdb. unfold bind. specialize (Hm db Hdb).
  destruct (m db) as [[a|e|x] db']; simpl in *; [apply Hk| |]; assumption.
Qed.

Lemma keeps_reader {A} (h : Handler A) :
  (forall db, snd (h db) = db) -> keeps_unique_names h.
Proof. intros Hread db Hdb. rewrite Hread. exact Hdb. Qed.

Lemma find_product_none n ps :
  List.find (fun p => String.eqb (name p) n) ps = None
  <-> ~ In n (map name ps).
Proof.
  split.
  - intros Hf Hin. apply in_map_iff in Hin as [q [Hname Hq]].
    apply (find_none _ _ Hf) in Hq. simpl in Hq.
    rewrite Hname, String.eqb_refl in Hq. discriminate.
  - intros Hno. destruct (List.find _ ps) as [q|] eqn:Hf; [|reflexivity].
    apply find_some in Hf as [Hq Heq]. apply String.eqb_eq in Heq.
    destruct Hno. apply in_map_iff. eauto.
Qed.

Lemma add_product_conflict p user db q :
  In q (products db) -> name q = in_name p ->
  add_product p user db = (Raise Conflict, db).
Proof.
  intros Hq Hname. unfold add_product. run.
  destruct (List.find _ (products db)) as [q'|] eqn:Hf; [reflexivity|].
  apply find_product_none in Hf. destruct Hf.
  apply in_map_iff. eauto.
Qed.

Lemma add_product_fresh p user db :
  ~ In (in_name p) (map name (products db)) ->
  add_product p user db =
    (Return (mkProduct (next_product_id (products db)) (in_name p)
               (in_description p) (sqlite_real (in_price p))),
     mkDatabase (users db)
       (products db ++ [mkProduct (next_product_id (products db)) (in_name p)
                          (in_description p) (sqlite_real (in_price p))])).
Proof.
  intros Hfresh. unfold add_product. run.
  apply find_product_none in Hfresh. rewrite Hfresh. reflexivity.
Qed.

Lemma add_product_keeps p user : keeps_unique_names (add_product p user).
Proof.
  intros db Hdb.
  destruct (in_dec String.string_dec (in_name p) (map name (products db)))
    as [Hin|Hfresh].
  - apply in_map_iff in Hin as [q [Hname Hq]].
    rewrite (add_product_conflict p user db q Hq Hname). exact Hdb.
  - rewrite (add_product_fresh p user db Hfresh). unfold unique_names in *. simpl.
    rewrite map_app. simpl. apply NoDup_app. repeat split.
    + exact Hdb.
    + intros n Hn Hn'. apply list_elem_of_singleton in Hn'. subst n.
      apply Hfresh. apply list_elem_of_In, Hn.
    + apply NoDup_singleton.
Qed.

Lemma require_roles_reads roles user db : snd (require_roles roles user db) = db.
Proof. unfold require_roles. case_bool_decide; reflexivity. Qed.

Section Store.
Context {J : JWS}.

Lemma depends_require_roles_reads roles now authorization db :
  snd (depends_require_roles roles now authorization db) = db.
Proof.
  unfold depends_require_roles, bind.
  pose proof (get_current_user_reads now authorization db) as Hread.
  destruct (get_current_user now authorization db) as [[user|e|x] db']; simpl in *;
    subst db'; [apply require_roles_reads|reflexivity..].
Qed.

Lemma create_token_reads u1 u2 request caller db :
  snd (create_token u1 u2 request caller db) = db.
Proof.
  rewrite create_token_unfold.
  destruct (_ && _); [reflexivity|].
  destruct (find_user _ db); [|reflexivity].
  destruct (plus_minutes u1 _); [|reflexivity].
  destruct (plus_minutes u2 _); reflexivity.
Qed.

Lemma get_products_reads user db : snd (get_products user db) = db.
Proof. unfold get_products. run. destruct (products db); reflexivity. Qed.

Lemma get_product_reads pid user db : snd (get_product pid user db) = db.
Proof.
  unfold get_product, query_product_by_id. run.
  destruct (sqlite_integer pid); [|reflexivity].
  destruct (List.find _ (products db)); reflexivity.
Qed.

Lemma serve_keeps r db : unique_names db -> unique_names (serve r db).
Proof.
  revert db. destruct r; simpl; unfold POST_token, POST_products, GET_products,
    GET_product.
  - apply keeps_bind; [apply keeps_reader, get_current_user_reads|].
    intros caller. apply keeps_reader, create_token_reads.
  - apply keeps_bind; [apply keeps_reader, depends_require_roles_reads|].
    apply add_product_keeps.
  - apply keeps_bind; [apply keeps_reader, depends_require_roles_reads|].
    intros user. apply keeps_reader, get_products_reads.
  - apply keeps_bind; [apply keeps_reader, depends_require_roles_reads|].
    intros user. apply keeps_reader, get_product_reads.
  - intros db Hdb. exact Hdb.
Qed.

(** C9.  Adding a product whose name is the name of a stored product
    raises the 409 and leaves the database as it was, for the handler and
    for the route behind the admin gate; every request the service serves
    keeps the names of the stored products pairwise distinct; so from an
    empty store no sequence of requests ever reaches a store in which two
    products share a name. *)
Theorem product_names_stay_unique :
  (forall p user db q,
      In q (products db) -> name q = in_name p ->
      add_product p user db = (Raise Conflict, db)) /\
  (forall now authorization p db user q,
      fst (depends_require_roles ["admin"] now authorization db) = Return user ->
      In q (products db) -> name q = in_name p ->
      POST_products now authorization p db = (Raise Conflict, db)) /\
  (forall r db, unique_names db -> unique_names (serve r db)) /\
  (forall us db, reachable (mkDatabase us []) db -> unique_names db).
Proof.
  split; [exact add_product_conflict|]. split; [|split; [exact serve_keeps|]].
  - intros now authorization p db user q Hgate Hq Hname.
    unfold POST_products, bind.
    pose proof (depends_require_roles_reads ["admin"] now authorization db) as Hread.
    destruct (depends_require_roles ["admin"] now authorization db) as [o db'].
    simpl in *. subst o db'. eapply add_product_conflict; eauto.
  - intros us db Hreach. induction Hreach as [|r db' _ IH].
    + unfold unique_names. simpl. apply NoDup_nil_2.
    + apply serve_keeps, IH.
Qed.


End Store.

(** ** The theorems at work on the example data *)

Lemma decode_token_create_access_token_witness :
  (0 + timedelta_minutes 1 <= datetime_max ->
   exists token,
     create_access_token (J := PlainCodec.codec) 0 (sub_role "alice" "privileged") 1
       = inr token /\
     0 < timegm (0 + timedelta_minutes 1) * 1000000 /\
     forall now, now < timegm (0 + timedelta_minutes 1) * 1000000 ->
       exists payload,
         decode_token (J := PlainCodec.codec) now token = Some payload /\
         payload !! "sub" = Some (JStr "alice") /\
         payload !! "role" = Some (JStr "privileged") /\
         payload !! "exp" = Some (JInt (timegm (0 + timedelta_minutes 1)))) /\
  (datetime_max < 0 + timedelta_minutes 1 ->
   create_access_token (J := PlainCodec.codec) 0 (sub_role "alice" "privileged") 1
     = inl OverflowError).
Proof.
  apply (@decode_token_create_access_token PlainCodec.codec
           PlainCodecFacts.codec_laws 0 "alice" "privileged" 1).
  - reflexivity.
  - unfold datetime_min, datetime_max. lia.
Defined.

Lemma create_token_positive_lifetime_witness :
  exists (minutes : Z) (user : User),
    find_user (Some (JStr "alice")) Demo.directory = Some user /\
    0 < minutes /\
    (@Given Z 0 = Absent \/ @Given Z 0 = Null \/ @Given Z 0 = Given 0 -> minutes = 15) /\
    (forall n, Given 0 = Given n -> 0 < n -> minutes = n) /\
    create_access_token (J := PlainCodec.codec) 0
      (sub_role (username user) (role user)) minutes
      = inr (access_token (Demo.response 0 7 Demo.alice 15)) /\
    expires_at (Demo.response 0 7 Demo.alice 15) = 7 + timedelta_minutes minutes /\
    7 < expires_at (Demo.response 0 7 Demo.alice 15).
Proof.
  apply (@create_token_positive_lifetime PlainCodec.codec 0 7 "alice" (Given 0)
           Demo.alice Demo.directory (Demo.response 0 7 Demo.alice 15)).
  - reflexivity.
  - right. right. exists 0. split; [reflexivity|lia].
Defined.

Lemma gate_follows_directory_role_witness :
  get_current_user (J := PlainCodec.codec) 1000
    (Some ("Bearer " ++ access_token (Demo.response 0 0 Demo.bob 1))%string)
    Demo.promoted
    = (Return Demo.bob_promoted, Demo.promoted) /\
  (fst (depends_require_roles (J := PlainCodec.codec) ["admin"; "privileged"] 1000
          (Some ("Bearer " ++ access_token (Demo.response 0 0 Demo.bob 1))%string)
          Demo.promoted) = Return Demo.bob_promoted
     <-> role Demo.bob_promoted ∈ ["admin"; "privileged"]) /\
  exists user_old payload,
    find_user (Some (JStr "bob")) Demo.directory = Some user_old /\
    resp_role (Demo.response 0 0 Demo.bob 1) = role user_old /\
    decode_token (J := PlainCodec.codec) 1000
      (access_token (Demo.response 0 0 Demo.bob 1)) = Some payload /\
    payload !! "role" = Some (JStr (role user_old)).
Proof.
  apply (proj2 (proj2 (@gate_follows_directory_role PlainCodec.codec
                         PlainCodecFacts.codec_laws))
           0 0 (parse_TokenRequest "bob" (Given 1)) Demo.admin Demo.directory
           (Demo.response 0 0 Demo.bob 1) 1000 Demo.promoted
           Demo.bob_promoted ["admin"; "privileged"]).
  - reflexivity.
  - discriminate.
  - reflexivity.
  - reflexivity.
Defined.

Lemma get_current_user_ignores_is_active_witness :
  same_outcome_but_active
    (fst (get_current_user (J := PlainCodec.codec) 0 (Demo.bearer Demo.bob)
            Demo.directory))
    (fst (get_current_user (J := PlainCodec.codec) 0 (Demo.bearer Demo.bob)
            Demo.inactive)) /\
  (forall user,
      fst (get_current_user (J := PlainCodec.codec) 0 (Demo.bearer Demo.bob)
             Demo.directory) = Return user ->
      exists user',
        fst (get_current_user (J := PlainCodec.codec) 0 (Demo.bearer Demo.bob)
               (deactivate_all Demo.directory)) = Return user' /\
        is_active user' = Some false /\
        same_but_active user user').
Proof.
  apply (@get_current_user_ignores_is_active PlainCodec.codec 0
           (Demo.bearer Demo.bob) Demo.directory Demo.inactive).
  simpl. repeat constructor.
Defined.


Lemma example_token_verifies (expire : datetime) (u r : string) :
  PlainCodec.verify (token_until (J := PlainCodec.codec) expire (sub_role u r))
    SECRET_KEY [ALGORITHM]
  = inr (<["exp" := JInt (timegm expire)]> (sub_role u r)).
Proof.
  unfold token_until, jwt_encode. rewrite int_date_to_encode.
  apply PlainCodecFacts.verify_sign_plain.
Qed.

Lemma get_current_user_cases_witness :
  fst (get_current_user (J := PlainCodec.codec) 0 (Demo.bearer Demo.alice)
         Demo.directory) = Return Demo.alice.
Proof.
  destruct (@get_current_user_cases PlainCodec.codec 0
              (Demo.bearer Demo.alice) Demo.directory) as (_ & Hcases & _).
  destruct (Hcases _ "Bearer" " " (Demo.token 0 Demo.alice 1) eq_refl)
    as (_ & Hpast).
  - discriminate.
  - reflexivity.
  - destruct Hpast as (_ & _ & _ & Hfound).
    + reflexivity.
    + apply (token_until_nonempty (L := PlainCodecFacts.codec_laws)).
    + apply (Hfound (<["exp" := JInt 60]> (sub_role "alice" "privileged"))).
      * apply (decode_token_until (L := PlainCodecFacts.codec_laws)).
        reflexivity.
      * reflexivity.
      * reflexivity.
Defined.

Lemma decode_token_none_iff_invalid_witness :
  decode_token (J := PlainCodec.codec) 60000001 (Demo.token 0 Demo.alice 1) = None.
Proof.
  apply (proj2 (proj2 (@decode_token_none_iff_invalid PlainCodec.codec 60000001 _))
           (<["exp" := JInt 60]> (sub_role "alice" "privileged")) (JInt 60) 60).
  - apply (example_token_verifies 60000000 "alice" "privileged").
  - reflexivity.
  - reflexivity.
  - reflexivity.
Defined.

Lemma product_names_stay_unique_witness :
  POST_products (J := PlainCodec.codec) 0 (Demo.bearer Demo.admin)
    Demo.widget Demo.stocked = (Raise Conflict, Demo.stocked) /\
  unique_names
    (serve (J := PlainCodec.codec)
       (ReqPostProducts 0 (Demo.bearer Demo.admin) Demo.widget)
       Demo.directory).
Proof.
  destruct (@product_names_stay_unique PlainCodec.codec)
    as (_ & Hroute & Hserve & _).
  split.
  - apply (Hroute 0 (Demo.bearer Demo.admin) Demo.widget Demo.stocked
             Demo.admin (mkProduct 1 "widget" None None)).
    + vm_compute. reflexivity.
    + left. reflexivity.
    + reflexivity.
  - apply Hserve. apply NoDup_nil_2.
Defined.

(** ** The scenarios of the specification, run on the example data *)

(** alice, a privileged user, asks for a token for bob. *)
Example alice_for_bob_forbidden :
  fst (POST_token (J := PlainCodec.codec) 0 0 0 (Demo.bearer Demo.alice)
         (parse_TokenRequest "bob" Absent) Demo.directory)
  = Raise DelegationForbidden.
Proof. vm_compute. reflexivity. Qed.

(** alice asks for a token for herself. *)
Example alice_for_alice_granted :
  fst (POST_token (J := PlainCodec.codec) 0 0 0 (Demo.bearer Demo.alice)
         (parse_TokenRequest "alice" Absent) Demo.directory)
  = Return (Demo.response 0 0 Demo.alice 15).
Proof. vm_compute. reflexivity. Qed.

(** The admin asks for a one-minute token for bob; bob is not admitted
    to the product list with it (his role is not allowed), and once the
    minute is over the token no longer authenticates. *)
Example bob_token_expires :
  fst (POST_token (J := PlainCodec.codec) 0 0 0 (Demo.bearer Demo.admin)
         (parse_TokenRequest "bob" (Given 1)) Demo.directory)
  = Return (Demo.response 0 0 Demo.bob 1) /\
  fst (GET_products (J := PlainCodec.codec) 59999999 (Demo.bearer Demo.bob)
         Demo.stocked)
  = Raise Forbidden /\
  fst (GET_products (J := PlainCodec.codec) 60000000 (Demo.bearer Demo.bob)
         Demo.stocked)
  = Raise (mkHTTPException 401 "Invalid or expired token").
Proof. repeat split; vm_compute; reflexivity. Qed.

(** Headers that never reach the token. *)
Example headers_refused :
  fst (get_current_user (J := PlainCodec.codec) 0 None Demo.directory)
  = Raise MissingCredentials /\
  fst (get_current_user (J := PlainCodec.codec) 0 (Some "Basic abc") Demo.directory)
  = Raise MalformedCredentials /\
  fst (get_current_user (J := PlainCodec.codec) 0 (Some "BEARER") Demo.directory)
  = Raise MalformedCredentials /\
  fst (get_current_user (J := PlainCodec.codec) 0 (Some "Bearer x") Demo.directory)
  = Raise (mkHTTPException 401 "Invalid or expired token").
Proof. repeat split; vm_compute; reflexivity. Qed.

(** The admin adds a product to the empty store, then once more. *)
Example widget_added_once :
  POST_products (J := PlainCodec.codec) 0 (Demo.bearer Demo.admin)
    Demo.widget Demo.directory
  = (Return (mkProduct 1 "widget" None None), Demo.stocked) /\
  POST_products (J := PlainCodec.codec) 0 (Demo.bearer Demo.admin)
    Demo.widget Demo.stocked
  = (Raise Conflict, Demo.stocked).
Proof. split; vm_compute; reflexivity. Qed.

(** * Further properties of the code *)

(** ** The header and the clock *)

Lemma partition_spaceless (s t : string) :
  spaceless s = true ->
  partition " " (s ++ String " " t) = (s, String " " EmptyString, t).
Proof.
  induction s as [|c r IH]; simpl; [reflexivity|].
  intros H. apply andb_true_iff in H as [Hc Hr].
  apply negb_true_iff in Hc. rewrite Hc, (IH Hr). reflexivity.
Qed.

Lemma lower_spaceless (s l : string) :
  lower s = l -> spaceless l = true -> spaceless s = true.
Proof.
  revert l. induction s as [|c r IH]; intros [|d l]; simpl; try discriminate;
    [reflexivity|].
  intros [= Hc Hr] H. apply andb_true_iff in H as [Hd Hl].
  rewrite (IH l Hr Hl), andb_true_r.
  destruct (Ascii.eqb_spec c " ") as [->|]; [|reflexivity].
  subst d. discriminate.
Qed.

Section HeaderAndClock.
Context {J : JWS}.

(** X1.  The scheme of the header is read without regard to case: a
    header made of any spelling of "bearer", one space and a token is
    treated as the header "bearer", space, the same token. *)
Theorem get_current_user_scheme_any_case (now : datetime) (s token : string)
    (db : Database) :
  lower s = "bearer" ->
  get_current_user now (Some (s ++ String " " token)%string) db
  = get_current_user now (Some ("bearer " ++ token)%string) db.
Proof.
  intros Hs.
  assert (Hp : partition " " (s ++ String " " token) = (s, String " " EmptyString, token)).
  { apply partition_spaceless. apply (lower_spaceless s "bearer" Hs). reflexivity. }
  assert (Hne : (s ++ String " " token)%string <> EmptyString)
    by (destruct s; discriminate).
  assert (Hne' : ("bearer " ++ token)%string <> EmptyString) by discriminate.
  rewrite (get_current_user_header now _ _ _ _ db Hne Hp).
  rewrite (get_current_user_header now _ "bearer" " " token db Hne' eq_refl).
  rewrite Hs. reflexivity.
Qed.

Lemma string_of_int_nonempty (n : Z) :
  NilZero.string_of_int (Z.to_int n) <> EmptyString.
Proof.
  destruct n as [|q|q]; simpl; try discriminate.
  unfold NilZero.string_of_uint. destruct (Pos.to_uint q); discriminate.
Qed.

(** X2.  Nobody signs in under an empty username.  Whenever
    [get_current_user] returns a user, that user is a row of the
    directory whose username is not empty; so a row with an empty
    username is never the caller, whatever token is presented. *)
Theorem get_current_user_named (now : datetime) (authorization : option string)
    (db : Database) (caller : User) :
  fst (get_current_user now authorization db) = Return caller ->
  In caller (users db) /\ username caller <> EmptyString.
Proof.
  destruct authorization as [h|]; [|discriminate].
  destruct (decide (h = EmptyString)) as [->|Hne]; [discriminate|].
  destruct (partition " " h) as [[scheme sep] token] eqn:Hp.
  rewrite (get_current_user_header _ _ _ _ _ _ Hne Hp).
  destruct (negb (String.eqb (lower scheme) "bearer") || negb (str_truthy token));
    [discriminate|].
  destruct (negb (payload_truthy (decode_token now token))); [discriminate|].
  destruct (truthy (default ∅ (decode_token now token) !! "sub")) eqn:Htruthy;
    [|discriminate]. simpl.
  unfold find_user.
  destruct (List.find _ (users db)) as [u|] eqn:Hf; [|discriminate].
  intros [= <-]. apply find_some in Hf as [Hin Heq]. split; [exact Hin|].
  destruct (default ∅ (decode_token now token) !! "sub") as [[s|n]|];
    simpl in *; try discriminate.
  - apply String.eqb_eq in Heq. rewrite Heq. apply str_truthy_true, Htruthy.
  - apply String.eqb_eq in Heq. rewrite Heq. apply string_of_int_nonempty.
Qed.

End HeaderAndClock.

(** ** The lifetime of an issued token *)

Lemma find_same_username (f : string -> bool) (us : list User) (x : User) :
  List.find (fun u => f (username u)) us = Some x ->
  List.find (fun u => String.eqb (username u) (username x)) us = Some x.
Proof.
  induction us as [|u us IH]; simpl; [discriminate|].
  destruct (f (username u)) eqn:Hf.
  - intros [= ->]. rewrite String.eqb_refl. reflexivity.
  - intros Hx. destruct (String.eqb_spec (username u) (username x)) as [Heq|_].
    + pose proof (find_some _ _ Hx) as [_ Hfx]. simpl in Hfx. congruence.
    + apply IH, Hx.
Qed.

Section Lifetime.
Context {J : JWS}.

Lemma get_current_user_found now authorization db caller :
  fst (get_current_user now authorization db) = Return caller ->
  find_user (Some (JStr (username caller))) db = Some caller.
Proof.
  destruct authorization as [h|]; [|discriminate].
  destruct (decide (h = EmptyString)) as [->|Hne]; [discriminate|].
  destruct (partition " " h) as [[scheme sep] token] eqn:Hp.
  rewrite (get_current_user_header _ _ _ _ _ _ Hne Hp).
  repeat match goal with
         | |- context [if ?b then _ else _] => destruct b; [discriminate|]
         end.
  destruct (find_user _ db) as [u|] eqn:Hf; [|discriminate].
  intros [= ->]. unfold find_user in *.
  apply (find_same_username
           (fun n => sql_text_eq n (default ∅ (decode_token now token) !! "sub"))), Hf.
Qed.

(** X5.  A caller who is not an admin gets no more than their own
    claims: when the token route answers such a caller with a token, the
    request named the caller, the role in the answer is the caller's role
    in the directory, and the token is the one made for the caller's own
    username and role. *)
Theorem POST_token_own_claims (now u1 u2 : datetime) (authorization : option string)
    (request : TokenRequest) (db : Database) (caller : User) (resp : TokenResponse) :
  fst (get_current_user now authorization db) = Return caller ->
  role caller <> "admin" ->
  fst (POST_token now u1 u2 authorization request db) = Return resp ->
  req_username request = username caller /\
  resp_role resp = role caller /\
  create_access_token u1 (sub_role (username caller) (role caller))
    (int_or (expires_minutes request) ACCESS_TOKEN_EXPIRE_MINUTES)
    = inr (access_token resp).
Proof.
  intros Hauth Hrole. pose proof (get_current_user_found _ _ _ _ Hauth) as Hfound.
  unfold POST_token, bind.
  pose proof (get_current_user_reads now authorization db) as Hread.
  destruct (get_current_user now authorization db) as [o db']. simpl in *.
  subst o db'. rewrite create_token_unfold.
  rewrite (bool_decide_eq_true_2 _ Hrole). simpl.
  case_bool_decide as Hname; [discriminate|].
  rewrite <- Hname, Hfound.
  fold (requested_minutes request). rewrite create_access_token_unfold.
  destruct (plus_minutes u1 _) as [e1|]; [|discriminate].
  destruct (plus_minutes u2 _) as [e2|]; [|discriminate].
  intros [= <-]. simpl. auto.
Qed.

Context {L : JWSLaws J}.

Lemma decode_token_until_late now expire data :
  timegm expire * 1000000 <= now ->
  decode_token now (token_until expire data) = None.
Proof.
  intros Hnow. unfold decode_token, token_until, jwt_decode, jwt_encode.
  rewrite int_date_to_encode. unfold ALGORITHM. rewrite verify_sign.
  unfold validate_exp. rewrite lookup_insert_eq. simpl.
  destruct (Z.leb_spec (timegm expire * 1000000) now); [reflexivity|lia].
Qed.

(** X3.  The window in which an issued token decodes.  For the token
    [create_token] returns: it decodes exactly at the instants before the
    whole second of the first clock reading plus the lifetime; so it
    decodes until one second before that sum at least; and when the clock
    did not run backwards between the two readings it is refused from the
    [expires_at] of the answer on. *)
Theorem create_token_window (u1 u2 : datetime) (request : TokenRequest)
    (caller : User) (db : Database) (resp : TokenResponse) :
  fst (create_token u1 u2 request caller db) = Return resp ->
  (forall now,
      decode_token now (access_token resp) <> None
      <-> now < timegm (u1 + timedelta_minutes
                               (int_or (expires_minutes request)
                                       ACCESS_TOKEN_EXPIRE_MINUTES)) * 1000000) /\
  (forall now,
      now <= u1 + timedelta_minutes
                    (int_or (expires_minutes request) ACCESS_TOKEN_EXPIRE_MINUTES)
             - 1000000 ->
      decode_token now (access_token resp) <> None) /\
  (u1 <= u2 ->
   forall now, expires_at resp <= now ->
               decode_token now (access_token resp) = None).
Proof.
  rewrite create_token_unfold.
  destruct (_ && _); [discriminate|].
  destruct (find_user _ db) as [user|]; [|discriminate].
  fold (requested_minutes request).
  destruct (plus_minutes u1 _) as [e1|] eqn:H1; [|discriminate].
  destruct (plus_minutes u2 _) as [e2|] eqn:H2; [|discriminate].
  apply plus_minutes_some in H1 as [-> _], H2 as [-> _].
  intros [= <-]. cbn [access_token expires_at].
  set (minutes := requested_minutes request).
  pose proof (timegm_floor (u1 + timedelta_minutes minutes)) as Hfloor.
  assert (Hwin : forall now,
             decode_token now (token_until (u1 + timedelta_minutes minutes)
                                 (sub_role (username user) (role user))) <> None
             <-> now < timegm (u1 + timedelta_minutes minutes) * 1000000).
  { intros now. split.
    - intros Hsome.
      destruct (Z.lt_ge_cases now (timegm (u1 + timedelta_minutes minutes) * 1000000))
        as [Hlt|Hge]; [exact Hlt|].
      destruct Hsome. apply decode_token_until_late, Hge.
    - intros Hlt. rewrite decode_token_until by exact Hlt. discriminate. }
  split; [exact Hwin|]. split.
  - intros now Hnow. apply Hwin. lia.
  - intros Hclock now Hnow. apply decode_token_until_late. lia.
Qed.

(** X4.  A negative lifetime gives a token that is dead on arrival: the
    token [create_token] returns for a request with a negative
    [expires_minutes] is refused by [get_current_user], as invalid or
    expired, at the instant it was made and at every later one. *)
Theorem create_token_negative_dead (u1 u2 : datetime) (target : string) (n : Z)
    (caller : User) (db db' : Database) (resp : TokenResponse) (now : datetime) :
  fst (create_token u1 u2 (parse_TokenRequest target (Given n)) caller db)
    = Return resp ->
  n < 0 -> u1 <= now ->
  get_current_user now (Some ("Bearer " ++ access_token resp)%string) db'
  = (Raise (mkHTTPException 401 "Invalid or expired token"), db').
Proof.
  intros Hret Hn Hnow. rewrite create_token_unfold in Hret.
  destruct (_ && _) in Hret; [discriminate|].
  destruct (find_user _ db) as [user|]; [|discriminate].
  destruct (plus_minutes u1 _) as [e1|] eqn:H1; [|discriminate].
  destruct (plus_minutes u2 _) as [e2|]; [|discriminate].
  apply plus_minutes_some in H1 as [-> _].
  injection Hret as <-. cbn [access_token].
  set (token := token_until _ _).
  assert (Hne : ("Bearer " ++ token)%string <> EmptyString) by discriminate.
  rewrite (get_current_user_header now _ "Bearer" " " token db' Hne eq_refl).
  assert (Htok : str_truthy token = true)
    by (apply str_truthy_true, token_until_nonempty).
  rewrite Htok. simpl.
  unfold token. rewrite decode_token_until_late; [reflexivity|].
  pose proof (timegm_floor
                (u1 + timedelta_minutes
                        (requested_minutes (parse_TokenRequest target (Given n))))) as H.
  unfold requested_minutes, int_or, timedelta_minutes in *. simpl in *.
  destruct (Z.eqb_spec n 0); lia.
Qed.

End Lifetime.

(** ** Who may do what, and what it does to the store *)



Lemma find_app_last {A} (P : A -> bool) (l : list A) (q : A) :
  (forall x, In x l -> P x = false) -> P q = true ->
  List.find P (l ++ [q]) = Some q.
Proof.
  intros Hold Hq. induction l as [|x l IH]; simpl.
  - rewrite Hq. reflexivity.
  - rewrite (Hold x (or_introl eq_refl)). apply IH.
    intros y Hy. apply Hold. right. exact Hy.
Qed.


Lemma find_product_id_none (pid : Z) (ps : list Product) :
  List.find (fun p => product_id p =? pid) ps = None
  <-> forall q, In q ps -> product_id q <> pid.
Proof.
  split.
  - intros Hf q Hq Heq. apply (find_none _ _ Hf) in Hq. simpl in Hq.
    apply Z.eqb_neq in Hq. contradiction.
  - intros Hno. destruct (List.find _ ps) as [q|] eqn:Hf; [|reflexivity].
    apply find_some in Hf as [Hq Heq]. apply Z.eqb_eq in Heq.
    destruct (Hno q Hq Heq).
Qed.

(** X11.  Reading one product.  For an id SQLite can hold as an
    integer, [get_product] returns a stored product with the id asked
    for and raises the 404 exactly when no stored product has that id;
    for an id outside the 64 bits of an SQLite integer the query ends in
    [OverflowError], which the service answers with a 500.  The database
    is only read. *)
Theorem get_product_by_id (pid : Z) (user : User) (db : Database) :
  (forall q, fst (get_product pid user db) = Return q ->
             In q (products db) /\ product_id q = pid) /\
  (fst (get_product pid user db) = Raise (mkHTTPException 404 "Product not found")
     <-> sqlite_integer pid = true /\
         forall q, In q (products db) -> product_id q <> pid) /\
  (sqlite_integer pid = true ->
   (exists q, In q (products db) /\ product_id q = pid) ->
     exists q, fst (get_product pid user db) = Return q) /\
  (fst (get_product pid user db) = Uncaught OverflowError
     <-> sqlite_integer pid = false) /\
  (sqlite_integer pid = false ->
   http_response (fst (get_product pid user db))
     = (500, PlainText "Internal Server Error")) /\
  snd (get_product pid user db) = db.
Proof.
  unfold get_product, query_product_by_id, bind, pure, raise.
  destruct (sqlite_integer pid); cbn [fst snd].
  - destruct (List.find _ (products db)) as [q|] eqn:Hf; cbn [fst snd].
    + pose proof (find_some _ _ Hf) as [Hq Heq]. apply Z.eqb_eq in Heq.
      split; [intros q' [= <-]; auto|].
      split; [|split; [eauto|split; [|split; [discriminate|reflexivity]]]].
      * split; [discriminate|]. intros [_ Hno]. destruct (Hno q Hq Heq).
      * split; discriminate.
    + pose proof (proj1 (find_product_id_none _ _) Hf) as Hno.
      split; [discriminate|]. split; [tauto|].
      split; [|split; [|split; [discriminate|reflexivity]]].
      * intros _ [q [Hq Heq]]. destruct (Hno q Hq Heq).
      * split; discriminate.
  - split; [discriminate|]. split; [split; [discriminate|intros [[=] _]]|].
    split; [discriminate|]. split; [tauto|]. split; reflexivity.
Qed.

Lemma two_roles (r : string) :
  r ∈ ["admin"; "privileged"] <-> r = "admin" \/ r = "privileged".
Proof.
  rewrite list_elem_of_In. simpl. intuition congruence.
Qed.

Section Access.
Context {J : JWS}.

Lemma depends_require_roles_unfold roles now authorization db :
  depends_require_roles roles now authorization db =
    match fst (get_current_user now authorization db) with
    | Return caller =>
        if bool_decide (role caller ∈ roles) then (Return caller, db)
        else (Raise Forbidden, db)
    | Raise e => (Raise e, db)
    | Uncaught x => (Uncaught x, db)
    end.
Proof.
  unfold depends_require_roles, bind.
  pose proof (get_current_user_reads now authorization db) as Hread.
  destruct (get_current_user now authorization db) as [[caller|e|x] db']; simpl in *;
    subst db'; [|reflexivity..].
  unfold require_roles, Forbidden. case_bool_decide; reflexivity.
Qed.

Lemma add_product_not_forbidden p user db :
  fst (add_product p user db) <> Raise Forbidden.
Proof.
  destruct (in_dec String.string_dec (in_name p) (map name (products db)))
    as [Hin|Hfresh].
  - apply in_map_iff in Hin as [q [Hname Hq]].
    rewrite (add_product_conflict p user db q Hq Hname). discriminate.
  - rewrite (add_product_fresh p user db Hfresh). discriminate.
Qed.

Lemma get_products_not_forbidden user db :
  fst (get_products user db) <> Raise Forbidden.
Proof. unfold get_products. run. destruct (products db); discriminate. Qed.

Lemma get_product_not_forbidden pid user db :
  fst (get_product pid user db) <> Raise Forbidden.
Proof.
  unfold get_product, query_product_by_id. run.
  destruct (sqlite_integer pid); [|discriminate].
  destruct (List.find _ (products db)); discriminate.
Qed.

(** X6.  Who reaches which route.  A request that does not authenticate
    is answered by every protected route with the exception of
    [get_current_user], and the database stays as it was.  For a request
    that authenticates, adding a product raises the 403 of the gate
    exactly when the caller's role is not "admin", and listing or reading
    products raises it exactly when the role is neither "admin" nor
    "privileged"; a refused request leaves the database as it was. *)
Theorem routes_by_role (now : datetime) (authorization : option string)
    (db : Database) :
  (forall e, fst (get_current_user now authorization db) = Raise e ->
     (forall u1 u2 request,
        POST_token now u1 u2 authorization request db = (Raise e, db)) /\
     (forall p, POST_products now authorization p db = (Raise e, db)) /\
     GET_products now authorization db = (Raise e, db) /\
     (forall pid, GET_product now authorization pid db = (Raise e, db))) /\
  (forall caller, fst (get_current_user now authorization db) = Return caller ->
     (forall p,
        (fst (POST_products now authorization p db) = Raise Forbidden
           <-> role caller <> "admin") /\
        (role caller <> "admin" -> snd (POST_products now authorization p db) = db)) /\
     (fst (GET_products now authorization db) = Raise Forbidden
        <-> role caller <> "admin" /\ role caller <> "privileged") /\
     (forall pid,
        fst (GET_product now authorization pid db) = Raise Forbidden
        <-> role caller <> "admin" /\ role caller <> "privileged")).
Proof.
  split.
  - intros e He. unfold POST_token, POST_products, GET_products, GET_product, bind.
    rewrite !depends_require_roles_unfold, He.
    pose proof (get_current_user_reads now authorization db) as Hread.
    destruct (get_current_user now authorization db) as [o db']. simpl in *.
    subst o db'. auto.
  - intros caller Hc. unfold POST_products, GET_products, GET_product, bind.
    rewrite !depends_require_roles_unfold, Hc.
    split; [|split].
    + intros p. case_bool_decide as Hin.
      * apply list_elem_of_singleton in Hin.
        split; [|tauto]. split; [|tauto].
        intros H. destruct (add_product_not_forbidden p caller db H).
      * rewrite list_elem_of_singleton in Hin. simpl. tauto.
    + rewrite (bool_decide_ext _ _ (two_roles (role caller))).
      case_bool_decide as Hin.
      * split; [intros H; destruct (get_products_not_forbidden caller db H)|tauto].
      * simpl. split; [|reflexivity]. intros _. tauto.
    + intros pid. rewrite (bool_decide_ext _ _ (two_roles (role caller))).
      case_bool_decide as Hin.
      * split; [intros H; destruct (get_product_not_forbidden pid caller db H)|tauto].
      * simpl. split; [|reflexivity]. intros _. tauto.
Qed.

End Access.

(** ** How the store grows *)

Lemma fold_max_seqZ (n : nat) :
  fold_right Z.max 1 (seqZ 2 (Z.of_nat n)) = 1 + Z.of_nat n.
Proof.
  induction n as [|n IH]; [reflexivity|].
  rewrite seqZ_S, fold_right_app. simpl.
  assert (Hgen : forall l a b,
             fold_right Z.max (Z.max a b) l = Z.max a (fold_right Z.max b l)).
  { induction l as [|x l IHl]; intros a b; simpl; [reflexivity|].
    rewrite IHl. lia. }
  rewrite Hgen, IH. lia.
Qed.

Lemma next_id_seqZ (n : nat) :
  match seqZ 1 (Z.of_nat n) with
  | [] => 1
  | i :: ids => 1 + fold_right Z.max i ids
  end = 1 + Z.of_nat n.
Proof.
  destruct n as [|n]; [reflexivity|].
  rewrite seqZ_cons by lia.
  replace (Z.pred (Z.of_nat (S n))) with (Z.of_nat n) by lia.
  change (Z.succ 1) with 2. rewrite fold_max_seqZ. lia.
Qed.

Section Growth.
Context {J : JWS}.

Lemma POST_products_unfold now authorization p db :
  POST_products now authorization p db =
    match fst (get_current_user now authorization db) with
    | Return caller =>
        if bool_decide (role caller ∈ ["admin"]) then add_product p caller db
        else (Raise Forbidden, db)
    | Raise e => (Raise e, db)
    | Uncaught x => (Uncaught x, db)
    end.
Proof.
  unfold POST_products, bind. rewrite depends_require_roles_unfold.
  destruct (fst (get_current_user now authorization db)) as [caller|e|x];
    [|reflexivity..].
  case_bool_decide; reflexivity.
Qed.

Lemma POST_token_route_reads now u1 u2 authorization request db :
  snd (POST_token now u1 u2 authorization request db) = db.
Proof.
  unfold POST_token, bind.
  pose proof (get_current_user_reads now authorization db) as Hread.
  destruct (get_current_user now authorization db) as [[caller|e|x] db'];
    simpl in *; subst db'; [apply create_token_reads|reflexivity..].
Qed.

Lemma GET_products_route_reads now authorization db :
  snd (GET_products now authorization db) = db.
Proof.
  unfold GET_products, bind.
  pose proof (depends_require_roles_reads ["admin"; "privileged"] now
                authorization db) as Hread.
  destruct (depends_require_roles _ now authorization db) as [[user|e|x] db'];
    simpl in *; subst db'; [apply get_products_reads|reflexivity..].
Qed.

Lemma GET_product_route_reads now authorization pid db :
  snd (GET_product now authorization pid db) = db.
Proof.
  unfold GET_product, bind.
  pose proof (depends_require_roles_reads ["admin"; "privileged"] now
                authorization db) as Hread.
  destruct (depends_require_roles _ now authorization db) as [[user|e|x] db'];
    simpl in *; subst db'; [apply get_product_reads|reflexivity..].
Qed.

Lemma serve_reads_unless_added r db :
  serve r db = db \/
  exists p,
    ~ In (in_name p) (map name (products db)) /\
    serve r db =
      mkDatabase (users db)
        (products db ++ [mkProduct (next_product_id (products db)) (in_name p)
                           (in_description p) (sqlite_real (in_price p))]).
Proof.
  destruct r as [now u1 u2 a body|now a body|now a|now a pid|]; simpl.
  - left. apply POST_token_route_reads.
  - rewrite POST_products_unfold.
    destruct (fst (get_current_user now a db)) as [caller|e|x];
      [|left; reflexivity..].
    case_bool_decide; [|left; reflexivity].
    destruct (in_dec String.string_dec (in_name body) (map name (products db)))
      as [Hin|Hfresh].
    + left. apply in_map_iff in Hin as [q [Hname Hq]].
      rewrite (add_product_conflict body caller db q Hq Hname). reflexivity.
    + right. exists body. split; [exact Hfresh|].
      rewrite (add_product_fresh body caller db Hfresh). reflexivity.
  - left. apply GET_products_route_reads.
  - left. apply GET_product_route_reads.
  - left. reflexivity.
Qed.



(** X9.  Row ids count up from one.  In every database the service
    reaches from an empty products table the ids of the stored products
    are 1, 2, 3, ... in the order the products were added; in particular
    no two stored products have the same id. *)
Theorem product_ids_count_up (us : list User) (db : Database) :
  reachable (mkDatabase us []) db ->
  map product_id (products db) = seqZ 1 (Z.of_nat (length (products db))) /\
  NoDup (map product_id (products db)).
Proof.
  intros Hreach.
  assert (Hids : map product_id (products db)
                 = seqZ 1 (Z.of_nat (length (products db)))).
  { induction Hreach as [|r db' _ IH]; [reflexivity|].
    destruct (serve_reads_unless_added r db') as [->|[p [_ ->]]]; [exact IH|].
    simpl. rewrite map_app, length_app, Nat.add_1_r, seqZ_S, IH. simpl.
    unfold next_product_id. rewrite IH, next_id_seqZ. reflexivity. }
  split; [exact Hids|]. rewrite Hids. apply NoDup_seqZ.
Qed.


End Growth.

(** ** Seeding the directory *)


Lemma find_user_app_fresh (u : string) (us : list User) (row : User) (ps : list Product) :
  find_user (Some (JStr u)) (mkDatabase us ps) = None -> username row = u ->
  find_user (Some (JStr u)) (mkDatabase (us ++ [row]) ps) = Some row.
Proof.
  unfold find_user. simpl. intros Hnone Hrow. apply find_app_last.
  - intros x Hx. apply (find_none _ _ Hnone x Hx).
  - rewrite Hrow. apply String.eqb_refl.
Qed.

Lemma find_app_found {A} (P : A -> bool) (l k : list A) (x : A) :
  List.find P l = Some x -> List.find P (l ++ k) = Some x.
Proof.
  induction l as [|y l IH]; simpl; [discriminate|].
  destruct (P y); [trivial|exact IH].
Qed.

Section SeedingFacts.
Variable sha256_hexdigest : string -> string.

Lemma create_user_existing username role password db old :
  find_user (Some (JStr username)) db = Some old ->
  create_user sha256_hexdigest username role password db
  = (db, [username ++ " already exists"]%string).
Proof. intros Hold. unfold create_user. rewrite Hold. reflexivity. Qed.

Lemma create_user_fresh username role password db :
  find_user (Some (JStr username)) db = None ->
  create_user sha256_hexdigest username role password db
  = (mkDatabase
       (users db ++ [mkUser (next_user_id (users db)) username role
                       (Some (hash_password sha256_hexdigest password))
                       None None (Some true)])
       (products db),
     ["Created: " ++ username ++ " (" ++ role ++ ")"]%string).
Proof. intros Hnone. unfold create_user. rewrite Hnone. reflexivity. Qed.

Lemma create_user_then_found username role password db :
  exists row,
    find_user (Some (JStr username))
      (fst (create_user sha256_hexdigest username role password db)) = Some row.
Proof.
  destruct (find_user (Some (JStr username)) db) as [old|] eqn:Hf.
  - rewrite (create_user_existing _ _ _ _ old Hf). eauto.
  - rewrite (create_user_fresh _ _ _ _ Hf). simpl. eexists.
    destruct db as [us ps]. apply find_user_app_fresh; [exact Hf|reflexivity].
Qed.


Lemma create_user_unique_usernames username role password db :
  unique_usernames db ->
  unique_usernames (fst (create_user sha256_hexdigest username role password db)).
Proof.
  intros Hnd.
  destruct (find_user (Some (JStr username)) db) as [old|] eqn:Hf.
  - rewrite (create_user_existing _ _ _ _ old Hf). exact Hnd.
  - rewrite (create_user_fresh _ _ _ _ Hf). unfold unique_usernames in *. simpl.
    rewrite map_app. simpl. apply NoDup_app. split; [exact Hnd|].
    split; [|apply NoDup_singleton].
    intros n Hn Hn'. apply list_elem_of_singleton in Hn'. subst n.
    apply list_elem_of_In, in_map_iff in Hn as [x [Hname Hx]].
    apply (proj1 (find_user_none username db) Hf x Hx Hname).
Qed.

(** X12.  [create_user] never overwrites.  When a row with the username
    is already there the call changes nothing and prints that the user
    exists, whatever role and password it was given; so a second call for
    the same username, with any role and password, leaves the database of
    the first call and prints that line. *)
Theorem create_user_idempotent (username role password role' password' : string)
    (db : Database) :
  (forall old, find_user (Some (JStr username)) db = Some old ->
     create_user sha256_hexdigest username role password db
     = (db, [username ++ " already exists"]%string)) /\
  create_user sha256_hexdigest username role' password'
    (fst (create_user sha256_hexdigest username role password db))
  = (fst (create_user sha256_hexdigest username role password db),
     [username ++ " already exists"]%string).
Proof.
  split; [intros old; apply create_user_existing|].
  destruct (create_user_then_found username role password db) as [row Hrow].
  apply (create_user_existing _ _ _ _ row Hrow).
Qed.


Lemma main_unfold db :
  main sha256_hexdigest db =
    (fst (create_user sha256_hexdigest "bob" "nonadmin" "test123"
            (fst (create_user sha256_hexdigest "alice" "privileged" "test123"
                    (fst (create_user sha256_hexdigest "admin" "admin" "test123" db))))),
     (snd (create_user sha256_hexdigest "admin" "admin" "test123" db)
      ++ snd (create_user sha256_hexdigest "alice" "privileged" "test123"
                (fst (create_user sha256_hexdigest "admin" "admin" "test123" db)))
      ++ snd (create_user sha256_hexdigest "bob" "nonadmin" "test123"
                (fst (create_user sha256_hexdigest "alice" "privileged" "test123"
                        (fst (create_user sha256_hexdigest "admin" "admin" "test123"
                                db))))))%list).
Proof.
  unfold main, create_tables.
  destruct (create_user sha256_hexdigest "admin" "admin" "test123" db) as [db1 o1].
  simpl.
  destruct (create_user sha256_hexdigest "alice" "privileged" "test123" db1)
    as [db2 o2]. simpl.
  destruct (create_user sha256_hexdigest "bob" "nonadmin" "test123" db2)
    as [db3 o3]. reflexivity.
Qed.

Lemma create_user_keeps_found u username role password db row :
  find_user (Some (JStr u)) db = Some row ->
  find_user (Some (JStr u))
    (fst (create_user sha256_hexdigest username role password db)) = Some row.
Proof.
  intros Hrow.
  destruct (find_user (Some (JStr username)) db) as [old|] eqn:Hf.
  - rewrite (create_user_existing _ _ _ _ old Hf). exact Hrow.
  - rewrite (create_user_fresh _ _ _ _ Hf). unfold find_user in *. simpl.
    apply find_app_found, Hrow.
Qed.

(** X14.  The seeding script can be run again.  After [main], on any
    database, the usernames admin, alice and bob are all found, and
    pairwise distinct usernames stay pairwise distinct; running [main]
    once more changes nothing and prints three times that the user
    exists. *)
Theorem main_rerun (db : Database) :
  (exists a b c,
      find_user (Some (JStr "admin")) (fst (main sha256_hexdigest db)) = Some a /\
      find_user (Some (JStr "alice")) (fst (main sha256_hexdigest db)) = Some b /\
      find_user (Some (JStr "bob")) (fst (main sha256_hexdigest db)) = Some c) /\
  (unique_usernames db -> unique_usernames (fst (main sha256_hexdigest db))) /\
  main sha256_hexdigest (fst (main sha256_hexdigest db))
  = (fst (main sha256_hexdigest db),
     ["admin already exists"; "alice already exists"; "bob already exists"]).
Proof.
  assert (Hfound : exists a b c,
      find_user (Some (JStr "admin")) (fst (main sha256_hexdigest db)) = Some a /\
      find_user (Some (JStr "alice")) (fst (main sha256_hexdigest db)) = Some b /\
      find_user (Some (JStr "bob")) (fst (main sha256_hexdigest db)) = Some c).
  { rewrite main_unfold. simpl.
    destruct (create_user_then_found "admin" "admin" "test123" db) as [a Ha].
    set (db1 := fst (create_user sha256_hexdigest "admin" "admin" "test123" db)) in *.
    destruct (create_user_then_found "alice" "privileged" "test123" db1) as [b Hb].
    set (db2 := fst (create_user sha256_hexdigest "alice" "privileged" "test123" db1))
      in *.
    destruct (create_user_then_found "bob" "nonadmin" "test123" db2) as [c Hc].
    exists a, b, c. split; [|split; [|exact Hc]].
    - apply create_user_keeps_found. apply create_user_keeps_found. exact Ha.
    - apply create_user_keeps_found. exact Hb. }
  split; [exact Hfound|]. split.
  - rewrite main_unfold. simpl. intros Hu.
    repeat apply create_user_unique_usernames. exact Hu.
  - destruct Hfound as (a & b & c & Ha & Hb & Hc).
    rewrite (main_unfold (fst (main sha256_hexdigest db))).
    rewrite (create_user_existing "admin" _ _ _ a Ha).
    simpl. rewrite (create_user_existing "alice" _ _ _ b Hb).
    simpl. rewrite (create_user_existing "bob" _ _ _ c Hc). reflexivity.
Qed.

End SeedingFacts.

Section SeededCaller.
Context {J : JWS} {L : JWSLaws J}.
Variable sha256_hexdigest : string -> string.


End SeededCaller.

(** ** The OpenAPI document *)

Ltac map_lookups :=
  repeat (first [ rewrite lookup_insert_eq
                | rewrite lookup_insert_ne by congruence
                | rewrite lookup_empty ]; simpl).

Ltac openapi_document :=
  split; [split; [tauto|discriminate]|];
  intros doc state [= <- <-];
  split; [reflexivity|];
  split; [map_lookups; reflexivity|];
  split; [map_lookups; reflexivity|];
  split; [intros k H1 H2; map_lookups; reflexivity|];
  split; [intros k H1; map_lookups; reflexivity|];
  split; [intros k H1; map_lookups; reflexivity|];
  intros generated';
  rewrite bool_decide_eq_false_2; [reflexivity|];
  intros Hempty; apply (f_equal (fun d => d !! "security")) in Hempty;
  rewrite lookup_insert_eq, lookup_empty in Hempty; discriminate.

(** X16.  What [custom_openapi] hands out.  A document that is cached
    and not empty is returned as it is.  Otherwise the call succeeds
    exactly when "components" and, inside it, "securitySchemes" hold an
    object or are not there; the document returned then has the bearer
    scheme under components / securitySchemes / HTTPBearer and the global
    security requirement, agrees with the generated document everywhere
    else, is not empty, and is the document every later call returns. *)
Theorem custom_openapi_document (generated : gmap string json)
    (cached : option (gmap string json)) :
  (forall schema, cached = Some schema -> schema <> ∅ ->
     custom_openapi generated cached = Some (schema, cached)) /\
  (cached = None \/ cached = Some ∅ ->
     (custom_openapi generated cached <> None
        <-> object_or_absent (generated !! "components") /\
            object_or_absent (json_get "securitySchemes" (generated !! "components"))) /\
     forall doc state, custom_openapi generated cached = Some (doc, state) ->
       state = Some doc /\
       json_get "HTTPBearer" (json_get "securitySchemes" (doc !! "components"))
         = Some HTTPBearer /\
       doc !! "security"
         = Some (JsArray [JsObject (<["HTTPBearer" := JsArray []]> ∅)]) /\
       (forall k, k <> "components" -> k <> "security" ->
                  doc !! k = generated !! k) /\
       (forall k, k <> "securitySchemes" ->
                  json_get k (doc !! "components")
                  = json_get k (generated !! "components")) /\
       (forall k, k <> "HTTPBearer" ->
                  json_get k (json_get "securitySchemes" (doc !! "components"))
                  = json_get k (json_get "securitySchemes"
                                  (generated !! "components"))) /\
       forall generated', custom_openapi generated' state = Some (doc, state)).
Proof.
  split.
  - intros schema -> Hne. unfold custom_openapi.
    rewrite bool_decide_eq_false_2 by exact Hne. reflexivity.
  - intros Hcached.
    assert (Hgen : custom_openapi generated cached = custom_openapi generated None).
    { destruct Hcached as [->| ->]; [reflexivity|]. unfold custom_openapi.
      rewrite bool_decide_eq_true_2 by reflexivity. reflexivity. }
    rewrite Hgen. clear Hgen Hcached cached.
    unfold custom_openapi, setdefault. simpl.
    destruct (generated !! "components") as [comp|] eqn:Hcomp; simpl.
    + destruct comp as [| | | | |m]; simpl;
        try (split; [split; [intros H; destruct H; reflexivity|tauto]|discriminate]).
      destruct (m !! "securitySchemes") as [sch|] eqn:Hsch; simpl.
      * destruct sch as [| | | | |sm]; simpl;
          try (split; [split; [intros H; destruct H; reflexivity|tauto]|discriminate]).
        openapi_document.
      * openapi_document.
    + rewrite lookup_empty. simpl. openapi_document.
Qed.

(** ** The further properties at work on the example data *)

Lemma get_current_user_scheme_any_case_witness :
  get_current_user (J := PlainCodec.codec) 0
    (Some ("BeArEr" ++ String " " (access_token (Demo.response 0 0 Demo.alice 1)))%string)
    Demo.directory
  = get_current_user (J := PlainCodec.codec) 0
      (Some ("bearer " ++ access_token (Demo.response 0 0 Demo.alice 1))%string)
      Demo.directory.
Proof.
  apply (@get_current_user_scheme_any_case PlainCodec.codec 0 "BeArEr").
  reflexivity.
Defined.

Lemma get_current_user_named_witness :
  In Demo.alice (users Demo.directory) /\ username Demo.alice <> EmptyString.
Proof.
  apply (@get_current_user_named PlainCodec.codec 0 (Demo.bearer Demo.alice)
           Demo.directory Demo.alice).
  vm_compute. reflexivity.
Defined.

Lemma POST_token_own_claims_witness :
  req_username (parse_TokenRequest "alice" Absent) = username Demo.alice /\
  resp_role (Demo.response 0 0 Demo.alice 15) = role Demo.alice /\
  create_access_token (J := PlainCodec.codec) 0
    (sub_role (username Demo.alice) (role Demo.alice))
    (int_or (expires_minutes (parse_TokenRequest "alice" Absent))
            ACCESS_TOKEN_EXPIRE_MINUTES)
    = inr (access_token (Demo.response 0 0 Demo.alice 15)).
Proof.
  apply (@POST_token_own_claims PlainCodec.codec 0 0 0 (Demo.bearer Demo.alice)
           (parse_TokenRequest "alice" Absent) Demo.directory Demo.alice
           (Demo.response 0 0 Demo.alice 15)).
  - vm_compute. reflexivity.
  - discriminate.
  - vm_compute. reflexivity.
Defined.

Lemma create_token_window_witness :
  decode_token (J := PlainCodec.codec) 60000007
    (access_token (Demo.response 0 7 Demo.alice 1)) = None.
Proof.
  apply (proj2 (proj2 (@create_token_window PlainCodec.codec PlainCodecFacts.codec_laws
                         0 7 (parse_TokenRequest "alice" (Given 1)) Demo.alice
                         Demo.directory (Demo.response 0 7 Demo.alice 1) eq_refl))).
  - lia.
  - vm_compute. discriminate.
Defined.

Lemma create_token_negative_dead_witness :
  get_current_user (J := PlainCodec.codec) 1000000
    (Some ("Bearer " ++ access_token (Demo.response 1000000 1000000 Demo.alice (-5)))%string)
    Demo.directory
  = (Raise (mkHTTPException 401 "Invalid or expired token"), Demo.directory).
Proof.
  apply (@create_token_negative_dead PlainCodec.codec PlainCodecFacts.codec_laws
           1000000 1000000 "alice" (-5) Demo.alice Demo.directory Demo.directory).
  - reflexivity.
  - lia.
  - lia.
Defined.


Lemma product_ids_count_up_witness :
  map product_id
    (products (serve (J := PlainCodec.codec)
                 (ReqPostProducts 0 (Demo.bearer Demo.admin) Demo.widget)
                 Demo.directory))
  = seqZ 1 (Z.of_nat
              (length (products (serve (J := PlainCodec.codec)
                                   (ReqPostProducts 0 (Demo.bearer Demo.admin)
                                      Demo.widget)
                                   Demo.directory)))) /\
  NoDup (map product_id
           (products (serve (J := PlainCodec.codec)
                        (ReqPostProducts 0 (Demo.bearer Demo.admin) Demo.widget)
                        Demo.directory))).
Proof.
  apply (@product_ids_count_up PlainCodec.codec (users Demo.directory)).
  apply reachable_step, reachable_here.
Defined.



Lemma routes_by_role_witness :
  fst (GET_products (J := PlainCodec.codec) 0 (Demo.bearer Demo.bob) Demo.stocked)
  = Raise Forbidden.
Proof.
  destruct (@routes_by_role PlainCodec.codec 0 (Demo.bearer Demo.bob) Demo.stocked)
    as [_ Hin].
  destruct (Hin Demo.bob) as (_ & Hlist & _).
  - vm_compute. reflexivity.
  - apply Hlist. split; discriminate.
Defined.


Lemma get_product_by_id_witness :
  fst (get_product 7 Demo.alice Demo.stocked)
  = Raise (mkHTTPException 404 "Product not found").
Proof.
  destruct (get_product_by_id 7 Demo.alice Demo.stocked) as (_ & Hmissing & _).
  apply Hmissing. split; [reflexivity|]. intros q [<-|[]]. discriminate.
Defined.

Lemma create_user_idempotent_witness :
  create_user Sample.digest "alice" "admin" "secret" Demo.directory
  = (Demo.directory, ["alice already exists"]).
Proof.
  apply (proj1 (create_user_idempotent Sample.digest "alice" "admin" "secret"
                  "admin" "secret" Demo.directory) Demo.alice).
  reflexivity.
Defined.


Lemma main_rerun_witness :
  unique_usernames (fst (main Sample.digest Sample.empty)).
Proof.
  destruct (main_rerun Sample.digest Sample.empty) as (_ & Hunique & _).
  apply Hunique. apply NoDup_nil_2.
Defined.

Lemma custom_openapi_document_witness :
  custom_openapi Sample.document None <> None.
Proof.
  destruct (custom_openapi_document Sample.document None) as [_ Hfresh].
  destruct (Hfresh (or_introl eq_refl)) as [Hok _].
  apply Hok. split; exact I.
Defined.

(** A lifetime that leads beyond the last [datetime] is answered with a
    500, and so is a product id beyond SQLite's integers. *)
Example out_of_range_answers_500 :
  http_response
    (fst (POST_token (J := PlainCodec.codec) 0 1700000000000000 1700000000000000
            (Demo.bearer Demo.alice) (parse_TokenRequest "alice" (Given 10000000000))
            Demo.directory))
  = (500, PlainText "Internal Server Error") /\
  http_response
    (fst (GET_product (J := PlainCodec.codec) 0 (Demo.bearer Demo.alice)
            9223372036854775808 Demo.stocked))
  = (500, PlainText "Internal Server Error").
Proof. split; vm_compute; reflexivity. Qed.

(** A price that is not a number is stored as NULL, and a table whose
    largest id is -3 gives the next row the id -2. *)
Example nan_price_and_negative_id :
  POST_products (J := PlainCodec.codec) 0 (Demo.bearer Demo.admin)
    Sample.priceless Sample.below_zero
  = (Return (mkProduct (-2) "priceless" None None),
     mkDatabase (users Sample.below_zero)
       [mkProduct (-3) "relic" None None; mkProduct (-2) "priceless" None None]).
Proof. vm_compute. reflexivity. Qed.

(** The seeding script on an empty database, and once more. *)
Example main_on_empty :
  main Sample.digest Sample.empty
  = (mkDatabase
       [mkUser 1 "admin" "admin" (Some "sha256:test123") None None (Some true);
        mkUser 2 "alice" "privileged" (Some "sha256:test123") None None (Some true);
        mkUser 3 "bob" "nonadmin" (Some "sha256:test123") None None (Some true)]
       [],
     ["Created: admin (admin)"; "Created: alice (privileged)";
      "Created: bob (nonadmin)"]).
Proof. vm_compute. reflexivity. Qed.

(** The document of the examples gets its security scheme beside the
    schemas it had. *)
Example sample_document_secured :
  exists doc,
    custom_openapi Sample.document None = Some (doc, Some doc) /\
    json_get "schemas" (doc !! "components") = Some (JsObject ∅) /\
    json_get "HTTPBearer" (json_get "securitySchemes" (doc !! "components"))
      = Some HTTPBearer /\
    doc !! "openapi" = Some (JsString "3.1.0").
Proof. eexists. repeat split. Qed.
